(** * Oslo cargo flight tracker (script.js): a shallow embedding

    The script fetches two XML feeds, parses them with the browser's
    DOMParser, keeps the flights of cargo carriers, sorts them by scheduled
    time and writes one table row per flight.

    Conventions of the embedding.
    - A JavaScript string is a [string] that holds its UTF-8 encoding.
      [trim] removes the white space of ECMA-262, in that encoding.
      [toUpperCase] is a function of the host, with the properties of the
      Unicode upper-casing that the script relies on; the keywords the
      classifier searches are ASCII, and [toLowerCase] is the lower-casing
      of the ASCII letters.
    - [null] / [undefined] results of DOM calls are [None].
    - A call that may throw returns a [Completion]; a function none of whose
      steps can throw is an ordinary total function.
    - The host objects (DOMParser, Date, Intl.DateTimeFormat) and the
      built-in [String.prototype.toUpperCase] are parameters of the functions
      that use them, gathered in a [Host] record. *)

From Stdlib Require Import ZArith NArith Ascii String List Permutation Sorted.
From stdpp Require Import base option list gmap strings.

Set Default Proof Using "Type".

(* ===================================================================== *)
(** * Strings *)
(* ===================================================================== *)

Module JsString.

Definition isUpper (c : ascii) : bool :=
  let n := nat_of_ascii c in (65 <=? n)%nat && (n <=? 90)%nat.

Definition isLower (c : ascii) : bool :=
  let n := nat_of_ascii c in (97 <=? n)%nat && (n <=? 122)%nat.

Definition upperChar (c : ascii) : ascii :=
  if isLower c then ascii_of_nat (nat_of_ascii c - 32) else c.

Definition lowerChar (c : ascii) : ascii :=
  if isUpper c then ascii_of_nat (nat_of_ascii c + 32) else c.

Fixpoint mapChars (f : ascii -> ascii) (s : string) : string :=
  match s with
  | EmptyString => EmptyString
  | String c r => String (f c) (mapChars f r)
  end.

(** Upper-casing and lower-casing of the ASCII letters, every other byte
    kept: what [s.toUpperCase()] and [s.toLowerCase()] do to ASCII text. *)
Definition toUpperCase (s : string) : string := mapChars upperChar s.
Definition toLowerCase (s : string) : string := mapChars lowerChar s.

(** [s.startsWith(p)]. *)
Fixpoint startsWith (s p : string) {struct p} : bool :=
  match p, s with
  | EmptyString, _ => true
  | String _ _, EmptyString => false
  | String a p', String b s' => Ascii.eqb a b && startsWith s' p'
  end.

(** [s.includes(sub)]: [sub] occurs in [s] as a substring. *)
Fixpoint includes (s sub : string) : bool :=
  startsWith s sub ||
  match s with
  | EmptyString => false
  | String _ r => includes r sub
  end.

Fixpoint reverseOnto (acc s : string) : string :=
  match s with
  | EmptyString => acc
  | String c r => reverseOnto (String c acc) r
  end.

Definition reverse (s : string) : string := reverseOnto EmptyString s.

(** The UTF-8 encoding of a code point of the Basic Multilingual Plane. *)
Definition utf8 (cp : N) : string :=
  let byte n := ascii_of_N n in
  if (cp <? 128)%N then String (byte cp) EmptyString
  else if (cp <? 2048)%N then
    String (byte (192 + cp / 64)%N) (String (byte (128 + cp mod 64)%N) EmptyString)
  else
    String (byte (224 + cp / 4096)%N)
      (String (byte (128 + (cp / 64) mod 64)%N)
         (String (byte (128 + cp mod 64)%N) EmptyString)).

(** The code points [String.prototype.trim] removes: the WhiteSpace and
    LineTerminator productions of ECMA-262, that is TAB, LF, VT, FF, CR,
    SPACE, NO-BREAK SPACE, the other space separators (U+1680,
    U+2000..U+200A, U+202F, U+205F, U+3000), LINE and PARAGRAPH SEPARATOR,
    and U+FEFF. *)
Definition whiteSpaceCodePoints : list N :=
  [ 0x09; 0x0A; 0x0B; 0x0C; 0x0D; 0x20; 0xA0; 0x1680;
    0x2000; 0x2001; 0x2002; 0x2003; 0x2004; 0x2005; 0x2006; 0x2007;
    0x2008; 0x2009; 0x200A; 0x2028; 0x2029; 0x202F; 0x205F; 0x3000;
    0xFEFF ]%N.

Definition whiteSpace : list string := map utf8 whiteSpaceCodePoints.

Definition reversedWhiteSpace : list string := map reverse whiteSpace.

(** [s] without the prefix [w], when it has it. *)
Fixpoint dropPrefix (w s : string) : option string :=
  match w with
  | EmptyString => Some s
  | String a w' =>
      match s with
      | EmptyString => None
      | String b s' => if Ascii.eqb a b then dropPrefix w' s' else None
      end
  end.

(** [s] without the first of the strings [ws] that it starts with. *)
Fixpoint stripOne (ws : list string) (s : string) : option string :=
  match ws with
  | [] => None
  | w :: r =>
      match dropPrefix w s with
      | Some t => Some t
      | None => stripOne r s
      end
  end.

(** [s] without its leading run of strings of [ws]; [fuel] bounds the number
    of strings taken off. *)
Fixpoint stripLeading (fuel : nat) (ws : list string) (s : string) : string :=
  match fuel with
  | O => s
  | S n =>
      match stripOne ws s with
      | Some r => stripLeading n ws r
      | None => s
      end
  end.

Definition trimStart (s : string) : string :=
  stripLeading (String.length s) whiteSpace s.

Definition trimEnd (s : string) : string :=
  reverse (stripLeading (String.length s) reversedWhiteSpace (reverse s)).

(** [s.trim()]. *)
Definition trim (s : string) : string := trimEnd (trimStart s).

(** [s] starts with one of the strings [ws]. *)
Definition startsWithAny (ws : list string) (s : string) : bool :=
  existsb (startsWith s) ws.

Definition startsWithWhiteSpace (s : string) : bool :=
  startsWithAny whiteSpace s.

Definition endsWithWhiteSpace (s : string) : bool :=
  startsWithAny reversedWhiteSpace (reverse s).

(** The string carries white space at neither end. *)
Definition noSurroundingWhiteSpace (s : string) : Prop :=
  startsWithWhiteSpace s = false /\ endsWithWhiteSpace s = false.

(** A concatenation of strings of [ws]. *)
Inductive ConcatOf (ws : list string) : string -> Prop :=
| concat_nil : ConcatOf ws EmptyString
| concat_cons w s : w ∈ ws -> ConcatOf ws s -> ConcatOf ws (w +:+ s).

(** The string consists of white space only. *)
Definition WhiteSpaceOnly (s : string) : Prop := ConcatOf whiteSpace s.

(** No character of [s] is one of the letters [a]..[z]. *)
Fixpoint noLower (s : string) : bool :=
  match s with
  | EmptyString => true
  | String c r => negb (isLower c) && noLower r
  end.

(** A string is falsy exactly when it is empty. *)
Definition truthy (s : string) : bool :=
  match s with EmptyString => false | _ => true end.

End JsString.

(* ===================================================================== *)
(** * JavaScript values, errors and completions *)
(* ===================================================================== *)

Record JsError := mkError { errName : string; errMessage : string }.

Inductive Completion (A : Type) : Type :=
| Normal (a : A)
| Throw (e : JsError).
Arguments Normal {A} a.
Arguments Throw {A} e.

#[global] Instance completion_ret : MRet Completion := fun A a => Normal a.

#[global] Instance completion_bind : MBind Completion := fun A B k c =>
  match c with
  | Normal a => k a
  | Throw e => Throw e
  end.

(** What a property read on a plain object can give here: a string stored by
    the script, [undefined], or a member inherited from [Object.prototype]
    (a function, or the prototype itself for [__proto__]), named by its key. *)
Inductive JsVal :=
| VStr (s : string)
| VUndefined
| VInherited (key : string).

(** Own enumerable names aside, every plain object answers to these keys
    through [Object.prototype]. *)
Definition objectPrototypeKeys : list string :=
  [ "constructor"; "__proto__"; "hasOwnProperty"; "isPrototypeOf";
    "propertyIsEnumerable"; "toLocaleString"; "toString"; "valueOf";
    "__defineGetter__"; "__defineSetter__"; "__lookupGetter__";
    "__lookupSetter__" ].

Definition inList (x : string) (l : list string) : bool :=
  existsb (String.eqb x) l.

(** [obj[key]] on a plain object whose own properties are the string-valued
    map [obj]. *)
Definition jsGet (obj : gmap string string) (key : string) : JsVal :=
  match obj !! key with
  | Some v => VStr v
  | None => if inList key objectPrototypeKeys then VInherited key else VUndefined
  end.

(** [obj[key] = v] for a string [v]: the [__proto__] setter ignores values
    that are not objects; every other key becomes an own property. *)
Definition jsSet (obj : gmap string string) (key v : string) : gmap string string :=
  if String.eqb key "__proto__" then obj else <[key := v]> obj.

(** [v || d] for a string default [d]. *)
Definition orElse (v : JsVal) (d : string) : JsVal :=
  match v with
  | VStr s => if JsString.truthy s then VStr s else VStr d
  | VUndefined => VStr d
  | VInherited k => VInherited k
  end.

(** Truthiness of a [string | null] value. *)
Definition truthyOpt (v : option string) : bool :=
  match v with
  | Some s => JsString.truthy s
  | None => false
  end.

(* ===================================================================== *)
(** * The DOM of a parsed XML document *)
(* ===================================================================== *)

Module Dom.

#[warnings="-register-all"]
Inductive Node :=
| Element (tagName : string) (attributes : list (string * string))
          (childNodes : list Node)
| Text (data : string)
| Comment (data : string).

(** A document is the list of its children: the root element, and the
    comments around it. *)
Record Document := mkDocument { docChildNodes : list Node }.

Definition matchesTag (tag name : string) : bool :=
  String.eqb tag "*" || String.eqb name tag.

(** The element itself if it matches, followed by its matching
    descendants, in tree order. *)
Fixpoint inclusiveElements (tag : string) (n : Node) : list Node :=
  match n with
  | Element name _ cs =>
      (if matchesTag tag name then [n] else [])
        ++ flat_map (inclusiveElements tag) cs
  | _ => []
  end.

(** [element.getElementsByTagName(tag)]: descendants only. *)
Definition getElementsByTagName (n : Node) (tag : string) : list Node :=
  match n with
  | Element _ _ cs => flat_map (inclusiveElements tag) cs
  | _ => []
  end.

(** [document.getElementsByTagName(tag)]. *)
Definition docGetElementsByTagName (d : Document) (tag : string) : list Node :=
  flat_map (inclusiveElements tag) (docChildNodes d).

Fixpoint assoc (name : string) (attrs : list (string * string)) : option string :=
  match attrs with
  | [] => None
  | (k, v) :: r => if String.eqb k name then Some v else assoc name r
  end.

(** [element.getAttribute(name)]: the value, or [null]. *)
Definition getAttribute (n : Node) (name : string) : option string :=
  match n with
  | Element _ attrs _ => assoc name attrs
  | _ => None
  end.

(** Concatenated data of the text nodes below a node, comments excluded. *)
Fixpoint descendantText (n : Node) : string :=
  match n with
  | Element _ _ cs => fold_right (fun c acc => descendantText c +:+ acc) "" cs
  | Text d => d
  | Comment _ => ""
  end.

(** [node.textContent]. *)
Definition textContent (n : Node) : string :=
  match n with
  | Comment d => d
  | _ => descendantText n
  end.

(** What [parseFromString] returns for a payload that is not well-formed
    XML: a document that carries a [parsererror] element. *)
Definition hasParserError (d : Document) : bool :=
  match docGetElementsByTagName d "parsererror" with
  | [] => false
  | _ => true
  end.

End Dom.

(* ===================================================================== *)
(** * Host objects and page state *)
(* ===================================================================== *)

(** The parts [formatToParts] yields for the options the script passes. *)
Record DateParts := mkParts
  { partDay : string; partMonth : string; partHour : string; partMinute : string }.

(** The browser objects and built-ins the script calls.
    - [parseFromString s] is [new DOMParser().parseFromString(s,
      "application/xml")]; it returns a document for every string, one with a
      [parsererror] element when [s] is not well-formed.
    - [newDate s] is the time value of [new Date(s)], in milliseconds since
      the epoch; [None] is the Invalid Date.
    - [formatToParts t] is what the en-GB, Europe/Oslo formatter of the
      script gives for a valid time value.
    - [jsToUpperCase s] is [s.toUpperCase()], the upper-casing of Unicode.
      Three of its properties are used: its result has none of the letters
      [a]..[z] (each of them is mapped to its capital, and no character is
      mapped to one of them); it maps the empty string, and no other, to the
      empty string; and it leaves a string that has no white space at its
      ends without white space at its ends (white space has no case, and no
      character is mapped to white space). *)
Record Host := mkHost
  { parseFromString : string -> Dom.Document;
    newDate : string -> option Z;
    formatToParts : Z -> DateParts;
    jsToUpperCase : string -> string;
    jsToUpperCase_noLower :
      forall s, JsString.noLower (jsToUpperCase s) = true;
    jsToUpperCase_empty :
      forall s, jsToUpperCase s = EmptyString <-> s = EmptyString;
    jsToUpperCase_ends :
      forall s, JsString.noSurroundingWhiteSpace s ->
                JsString.noSurroundingWhiteSpace (jsToUpperCase s) }.

(** A [td] element: its column span and its text. *)
Record Cell := mkCell { colSpan : nat; cellText : JsVal }.

Definition Row := list Cell.

(** The part of the page the script writes: the rows of
    [#flightsTable tbody] and the console. *)
Record Page := mkPage { tableBody : list Row; console : list JsError }.

(** A fetched response: its HTTP status and the outcome of [text()]. *)
Record Response := mkResponse { status : Z; text : Completion string }.

(** The network as one invocation sees it: how each [fetch] settles, and
    which of the two settles first. *)
Record Network := mkNetwork
  { fetch : string -> Completion Response;
    secondSettlesFirst : bool }.

(** [Promise.all([p, q])]: both values, or the reason of the promise that is
    rejected first. *)
Definition promiseAll {A B} (secondFirst : bool)
    (p : Completion A) (q : Completion B) : Completion (A * B) :=
  match p, q with
  | Normal a, Normal b => Normal (a, b)
  | Throw e, Normal _ => Throw e
  | Normal _, Throw e => Throw e
  | Throw e1, Throw e2 => Throw (if secondFirst then e2 else e1)
  end.

(** The number a comparator returns: [None] is NaN. *)
Definition sortCompare {A} (comparefn : A -> A -> option Z) (x y : A) : Z :=
  match comparefn x y with
  | Some v => v
  | None => 0
  end.

Fixpoint sortedInsert {A} (comparefn : A -> A -> option Z) (x : A) (l : list A)
    : list A :=
  match l with
  | [] => [x]
  | y :: r =>
      if (sortCompare comparefn x y <=? 0)%Z then x :: y :: r
      else y :: sortedInsert comparefn x r
  end.

(** [array.sort(comparefn)]. The sort of ECMA-262 is stable, and for a
    comparator that orders the elements consistently the standard leaves one
    possible result: the one a stable insertion computes. When the
    comparator returns NaN for some pairs (here: a flight without a valid
    date) the standard leaves the order to the engine, and engines differ;
    the statements about order below are made for valid dates. *)
Definition arraySort {A} (comparefn : A -> A -> option Z) (l : list A) : list A :=
  fold_right (sortedInsert comparefn) [] l.

(** [for (x of l) if (f(x)) out.push(x)] with a predicate that may throw:
    [array.filter]. *)
Fixpoint arrayFilter {A} (f : A -> Completion bool) (l : list A)
    : Completion (list A) :=
  match l with
  | [] => Normal []
  | x :: r =>
      b ← f x;
      r' ← arrayFilter f r;
      Normal (if b : bool then x :: r' else r')
  end.

(* ===================================================================== *)
(** * script.js *)
(* ===================================================================== *)

Definition CARGO_CODES : list string :=
  [ "UPS"; "5X"; "BCS"; "ES"; "QY"; "D0";
    "APF"; "HP"; "QAF"; "Q7"; "QR" ].

Definition CARGO_KEYWORDS : list string :=
  [ "cargo"; "dhl"; "ups"; "amapola";
    "qatar"; "freight"; "postal" ].

Definition BASE_URL : string := "https://corsproxy.io/?https://asrv.avinor.no".
Definition XML_FEED_URL : string := BASE_URL +:+ "/XmlFeed/v1.0".
Definition AIRLINE_NAMES_URL : string := BASE_URL +:+ "/airlineNames/v1.0".

Record Flight := mkFlight
  { airline : string;
    flightId : string;
    scheduleTime : string;
    arrDep : string;
    otherAirport : string;
    statusCode : option string;
    statusTime : option string }.

Section Script.

Context (host : Host).

(** One turn of the loop of [parseAirlineNames]. *)
Definition addAirlineName (map : gmap string string) (el : Dom.Node)
    : gmap string string :=
  let code := Dom.getAttribute el "code" in
  let name := Dom.getAttribute el "name" in
  match code, name with
  | Some c, Some n =>
      if JsString.truthy c && JsString.truthy n
      then jsSet map (jsToUpperCase host c) n
      else map
  | _, _ => map
  end.

Definition parseAirlineNames (xmlString : string) : gmap string string :=
  let doc := parseFromString host xmlString in
  let airlineElems := Dom.docGetElementsByTagName doc "airlineName" in
  fold_left addAirlineName airlineElems ∅.

(** The closure [getText] of [parseFlights], for the flight element [f]. *)
Definition getText (f : Dom.Node) (tag : string) : string :=
  match Dom.getElementsByTagName f tag with
  | el :: _ => JsString.trim (Dom.textContent el)
  | [] => ""
  end.

(** The record pushed for one flight element. *)
Definition flightOfElement (f : Dom.Node) : Flight :=
  let airline := jsToUpperCase host (getText f "airline") in
  let flightId := getText f "flight_id" in
  let scheduleTime := getText f "schedule_time" in
  let arrDep := getText f "arr_dep" in
  let otherAirport := getText f "airport" in
  let statusEl := head (Dom.getElementsByTagName f "status") in
  let statusCode :=
    match statusEl with Some el => Dom.getAttribute el "code" | None => None end in
  let statusTime :=
    match statusEl with Some el => Dom.getAttribute el "time" | None => None end in
  mkFlight airline flightId scheduleTime arrDep otherAirport statusCode statusTime.

Definition parseFlights (xmlString : string) : list Flight :=
  let doc := parseFromString host xmlString in
  let flightElems := Dom.docGetElementsByTagName doc "flight" in
  flightOfElement <$> flightElems.

Definition formatLocalTime (isoTime : option string) : Completion string :=
  match isoTime with
  | None => Normal ""
  | Some s =>
      if negb (JsString.truthy s) then Normal ""
      else
        match newDate host s with
        | None => Throw (mkError "RangeError" "Invalid time value")
        | Some date =>
            let parts := formatToParts host date in
            Normal (partDay parts +:+ " " +:+ partMonth parts +:+ " "
                      +:+ partHour parts +:+ ":" +:+ partMinute parts)
        end
  end.

Definition statusMap : gmap string string :=
  list_to_map
    [ ("A", "Arrived"); ("C", "Cancelled"); ("D", "Departed");
      ("E", "New time"); ("N", "New info") ].

Definition getStatusDescription (code time : option string) : Completion JsVal :=
  match code with
  | None => Normal (VStr "")
  | Some c =>
      if negb (JsString.truthy c) then Normal (VStr "")
      else
        let desc := orElse (jsGet statusMap c) c in
        if String.eqb c "E" && truthyOpt time then
          t ← formatLocalTime time;
          Normal (VStr ("New time " +:+ t))
        else Normal desc
  end.

Definition isCargoFlight (flight : Flight) (airlinesMap : gmap string string)
    : Completion bool :=
  let code := airline flight in
  if inList code CARGO_CODES then Normal true
  else
    match orElse (jsGet airlinesMap code) "" with
    | VStr s =>
        let name := JsString.toLowerCase s in
        Normal (existsb (fun kw => JsString.includes name kw) CARGO_KEYWORDS)
    | _ => Throw (mkError "TypeError" "toLowerCase is not a function")
    end.

Definition textCell (v : JsVal) : Cell := mkCell 1 v.

Definition messageRow (msg : string) : Row := [mkCell 6 (VStr msg)].

(** The row built for one flight by the callback of [flights.forEach]. *)
Definition flightRow (flight : Flight) (airlinesMap : gmap string string)
    : Completion Row :=
  localTime ← formatLocalTime (Some (scheduleTime flight));
  let timeCell := textCell (VStr localTime) in
  let airlineCell :=
    textCell (orElse (jsGet airlinesMap (airline flight)) (airline flight)) in
  let flightCell := textCell (VStr (flightId flight)) in
  let directionCell :=
    textCell (VStr (if String.eqb (arrDep flight) "A" then "Arrival" else "Departure")) in
  let airportCell := textCell (VStr (otherAirport flight)) in
  desc ← getStatusDescription (statusCode flight) (statusTime flight);
  let statusCell := textCell desc in
  Normal [timeCell; airlineCell; flightCell; directionCell; airportCell; statusCell].

(** [flights.forEach(...)]: rows are appended one by one; a throw leaves
    the rows appended so far. *)
Fixpoint appendRows (flights : list Flight) (airlinesMap : gmap string string)
    (rows : list Row) : Completion unit * list Row :=
  match flights with
  | [] => (Normal (), rows)
  | flight :: rest =>
      match flightRow flight airlinesMap with
      | Normal row => appendRows rest airlinesMap (rows ++ [row])
      | Throw e => (Throw e, rows)
      end
  end.

Definition renderFlights (flights : list Flight) (airlinesMap : gmap string string)
    (rows : list Row) : Completion unit * list Row :=
  let rows := [] in
  match flights with
  | [] => (Normal (), rows ++ [messageRow "No cargo flights found in the selected timeframe."])
  | _ => appendRows flights airlinesMap rows
  end.

(** The comparator passed to [sort]: the difference of two dates, NaN when
    one of them is invalid. *)
Definition bySchedule (a b : Flight) : option Z :=
  match newDate host (scheduleTime a), newDate host (scheduleTime b) with
  | Some x, Some y => Some (x - y)%Z
  | _, _ => None
  end.

(** The body of the [try] block of [loadFlights], on the rows of the
    table. *)
Definition loadFlightsTry (net : Network) (rows : list Row)
    : Completion unit * list Row :=
  let params := "airport=OSL&TimeFrom=1&TimeTo=24" in
  let flightResPromise := fetch net (XML_FEED_URL +:+ "?" +:+ params) in
  let airlinesResPromise := fetch net AIRLINE_NAMES_URL in
  let fetched :=
    '(flightRes, airlinesRes) ←
       promiseAll (secondSettlesFirst net) flightResPromise airlinesResPromise;
    flightsXml ← text flightRes;
    airlinesXml ← text airlinesRes;
    let airlinesMap := parseAirlineNames airlinesXml in
    let allFlights := parseFlights flightsXml in
    cargoFlights ← arrayFilter (fun flight => isCargoFlight flight airlinesMap) allFlights;
    Normal (arraySort bySchedule cargoFlights, airlinesMap) in
  match fetched with
  | Normal (cargoFlights, airlinesMap) => renderFlights cargoFlights airlinesMap rows
  | Throw e => (Throw e, rows)
  end.

Definition loadFlights (net : Network) (page : Page) : Page :=
  let rows := [messageRow "Loading flights…"] in
  match loadFlightsTry net rows with
  | (Normal _, rows') => mkPage rows' (console page)
  | (Throw err, _) =>
      mkPage [messageRow ("Error fetching flight data: " +:+ errMessage err)]
             (console page ++ [err])
  end.

End Script.

(* ===================================================================== *)
(** * A reference host *)
(* ===================================================================== *)

(** An executable instance of [Host], to run the script on concrete
    payloads. The statements about the script are made for every host; this
    one serves the closed examples.
    - The XML reader covers elements, attributes, character data, comments
      and the XML declaration; it has no entity references, CDATA sections
      or DTDs, and answers the [parsererror] document to whatever it does
      not read.
    - The date reader takes the form [YYYY-MM-DDTHH:MM:SSZ] of the feed.
    - Upper-casing is that of the ASCII letters.
    - The formatter applies the Central European rule in force since 1996:
      UTC+2 from the last Sunday of March, 01:00 UTC, to the last Sunday of
      October, 01:00 UTC, and UTC+1 otherwise. *)
Module Reference.

Import JsString.

Inductive Token :=
| TOpen (name : string) (attrs : list (string * string)) (selfClosing : bool)
| TClose (name : string)
| TText (data : string)
| TComment (data : string).

(** The longest prefix without a character satisfying [stop], and the rest. *)
Fixpoint breakOn (stop : ascii -> bool) (s : string) : string * string :=
  match s with
  | EmptyString => (EmptyString, EmptyString)
  | String c r =>
      if stop c then (EmptyString, s)
      else let '(a, b) := breakOn stop r in (String c a, b)
  end.

(** The text before the first occurrence of [delim], and the text after
    it. *)
Fixpoint splitOn (delim : string) (s : string) : option (string * string) :=
  if startsWith s delim then
    Some (EmptyString, String.substring (String.length delim) (String.length s) s)
  else
    match s with
    | EmptyString => None
    | String c r =>
        match splitOn delim r with
        | Some (a, b) => Some (String c a, b)
        | None => None
        end
    end.

(** The white space of XML: space, tab, carriage return and line feed. *)
Definition isSpace (c : ascii) : bool :=
  Ascii.eqb c " " || Ascii.eqb c "009" || Ascii.eqb c "013" || Ascii.eqb c "010".

Fixpoint skipSpaces (s : string) : string :=
  match s with
  | EmptyString => EmptyString
  | String c r => if isSpace c then skipSpaces r else s
  end.

Fixpoint allSpaces (s : string) : bool :=
  match s with
  | EmptyString => true
  | String c r => isSpace c && allSpaces r
  end.

Definition isNameEnd (c : ascii) : bool :=
  isSpace c || Ascii.eqb c "/" || Ascii.eqb c ">" || Ascii.eqb c "="
    || Ascii.eqb c "<".

Definition isChar (x : ascii) (c : ascii) : bool := Ascii.eqb c x.

(** The attributes of a start tag, up to its closing [>] or [/>]. *)
Fixpoint lexAttrs (fuel : nat) (s : string) (acc : list (string * string))
    : option (list (string * string) * bool * string) :=
  match fuel with
  | O => None
  | S fuel' =>
      match skipSpaces s with
      | String ">" r => Some (rev acc, false, r)
      | String "/" (String ">" r) => Some (rev acc, true, r)
      | s' =>
          let '(name, r1) := breakOn isNameEnd s' in
          match name, skipSpaces r1 with
          | String _ _, String "=" r2 =>
              match skipSpaces r2 with
              | String q r3 =>
                  if Ascii.eqb q "034" || Ascii.eqb q "039" then
                    let '(v, r4) := breakOn (isChar q) r3 in
                    match r4 with
                    | String _ r5 =>
                        if includes v "<" || includes v "&"
                           || existsb (fun kv => String.eqb (fst kv) name) acc
                        then None
                        else lexAttrs fuel' r5 ((name, v) :: acc)
                    | EmptyString => None
                    end
                  else None
              | EmptyString => None
              end
          | _, _ => None
          end
      end
  end.

Fixpoint lex (fuel : nat) (s : string) : option (list Token) :=
  match fuel with
  | O => None
  | S fuel' =>
      match s with
      | EmptyString => Some []
      | String "<" r =>
          if startsWith r "!--" then
            match splitOn "-->" (String.substring 3 (String.length r) r) with
            | Some (c, r') => cons (TComment c) <$> lex fuel' r'
            | None => None
            end
          else if startsWith r "?xml" then
            match splitOn "?>" r with
            | Some (_, r') => lex fuel' r'
            | None => None
            end
          else if startsWith r "/" then
            let '(name, r1) :=
              breakOn isNameEnd (String.substring 1 (String.length r) r) in
            match name, skipSpaces r1 with
            | String _ _, String ">" r2 => cons (TClose name) <$> lex fuel' r2
            | _, _ => None
            end
          else
            let '(name, r1) := breakOn isNameEnd r in
            match name with
            | EmptyString => None
            | _ =>
                match lexAttrs (S (String.length r1)) r1 [] with
                | Some (attrs, selfClosing, r2) =>
                    cons (TOpen name attrs selfClosing) <$> lex fuel' r2
                | None => None
                end
            end
      | _ =>
          let '(t, r) := breakOn (isChar "<") s in
          if includes t "&" then None
          else cons (TText t) <$> lex fuel' r
      end
  end.

(** An element being read: its name, its attributes and the children read
    so far, last first. *)
Definition Frame : Type := string * list (string * string) * list Dom.Node.

Definition addChild (n : Dom.Node) (stack : list Frame) (top : list Dom.Node)
    : list Frame * list Dom.Node :=
  match stack with
  | (name, attrs, kids) :: rest => ((name, attrs, n :: kids) :: rest, top)
  | [] => ([], n :: top)
  end.

Definition isElement (n : Dom.Node) : bool :=
  match n with Dom.Element _ _ _ => true | _ => false end.

Fixpoint build (tokens : list Token) (stack : list Frame) (top : list Dom.Node)
    : option (list Dom.Node) :=
  match tokens with
  | [] => match stack with [] => Some (rev top) | _ => None end
  | tok :: rest =>
      match tok with
      | TOpen name attrs false => build rest ((name, attrs, []) :: stack) top
      | TOpen name attrs true =>
          let '(stack', top') := addChild (Dom.Element name attrs []) stack top in
          build rest stack' top'
      | TClose name =>
          match stack with
          | (name', attrs, kids) :: stack' =>
              if String.eqb name name' then
                let '(stack'', top') :=
                  addChild (Dom.Element name' attrs (rev kids)) stack' top in
                build rest stack'' top'
              else None
          | [] => None
          end
      | TText t =>
          match stack with
          | [] => if allSpaces t then build rest stack top else None
          | _ => let '(stack', top') := addChild (Dom.Text t) stack top in
                 build rest stack' top'
          end
      | TComment c =>
          let '(stack', top') := addChild (Dom.Comment c) stack top in
          build rest stack' top'
      end
  end.

Definition parserErrorDocument : Dom.Document :=
  Dom.mkDocument
    [ Dom.Element "parsererror"
        [("xmlns", "http://www.mozilla.org/newlayout/xml/parsererror.xml")]
        [Dom.Text "XML Parsing Error: not well-formed"] ].

(** A well-formed document has exactly one root element. *)
Definition xmlParse (s : string) : Dom.Document :=
  match lex (S (String.length s)) s with
  | Some tokens =>
      match build tokens [] [] with
      | Some top =>
          if (length (filter (fun n => isElement n = true) top) =? 1)%nat
          then Dom.mkDocument top
          else parserErrorDocument
      | None => parserErrorDocument
      end
  | None => parserErrorDocument
  end.

(** ** Dates *)

Definition digit (c : ascii) : option Z :=
  let n := nat_of_ascii c in
  if (48 <=? n)%nat && (n <=? 57)%nat then Some (Z.of_nat (n - 48)) else None.

(** The number written by a string of decimal digits. *)
Fixpoint digits (acc : Z) (s : string) : option Z :=
  match s with
  | EmptyString => Some acc
  | String c r =>
      match digit c with
      | Some d => digits (10 * acc + d) r
      | None => None
      end
  end.

Definition number (s : string) : option Z :=
  match s with
  | EmptyString => None
  | _ => digits 0 s
  end.

Definition isLeap (y : Z) : bool :=
  ((y mod 4 =? 0) && negb (y mod 100 =? 0) || (y mod 400 =? 0))%Z.

Definition daysInMonth (y m : Z) : Z :=
  if (m =? 2)%Z then (if isLeap y then 29 else 28)
  else if ((m =? 4) || (m =? 6) || (m =? 9) || (m =? 11))%Z then 30
  else 31.

(** Days from 1970-01-01 to the civil date [y]-[m]-[d]. *)
Definition daysFromCivil (y m d : Z) : Z :=
  let y' := (if m <=? 2 then y - 1 else y)%Z in
  let era := (y' / 400)%Z in
  let yoe := (y' - era * 400)%Z in
  let mp := (if m <=? 2 then m + 9 else m - 3)%Z in
  let doy := ((153 * mp + 2) / 5 + d - 1)%Z in
  let doe := (yoe * 365 + yoe / 4 - yoe / 100 + doy)%Z in
  (era * 146097 + doe - 719468)%Z.

(** The civil date (year, month, day) that lies [z] days after
    1970-01-01. *)
Definition civilFromDays (z : Z) : Z * Z * Z :=
  let z' := (z + 719468)%Z in
  let era := (z' / 146097)%Z in
  let doe := (z' - era * 146097)%Z in
  let yoe := ((doe - doe / 1460 + doe / 36524 - doe / 146096) / 365)%Z in
  let doy := (doe - (365 * yoe + yoe / 4 - yoe / 100))%Z in
  let mp := ((5 * doy + 2) / 153)%Z in
  let d := (doy - (153 * mp + 2) / 5 + 1)%Z in
  let m := (if mp <? 10 then mp + 3 else mp - 9)%Z in
  let y := (yoe + era * 400 + (if m <=? 2 then 1 else 0))%Z in
  (y, m, d).

Definition msPerHour : Z := 3600000.
Definition msPerDay : Z := 86400000.

(** [new Date(s)] for [s] of the form [YYYY-MM-DDTHH:MM:SSZ]. *)
Definition isoDate (s : string) : option Z :=
  let part i n := String.substring i n s in
  if (String.length s =? 20)%nat
     && String.eqb (part 4 1) "-" && String.eqb (part 7 1) "-"
     && String.eqb (part 10 1) "T" && String.eqb (part 13 1) ":"
     && String.eqb (part 16 1) ":" && String.eqb (part 19 1) "Z"
  then
    y ← number (part 0 4);
    m ← number (part 5 2);
    d ← number (part 8 2);
    hh ← number (part 11 2);
    mm ← number (part 14 2);
    ss ← number (part 17 2);
    if ((1 <=? m) && (m <=? 12) && (1 <=? d) && (d <=? daysInMonth y m)
        && (hh <=? 23) && (mm <=? 59) && (ss <=? 59))%Z
    then Some (daysFromCivil y m d * msPerDay
               + hh * msPerHour + mm * 60000 + ss * 1000)%Z
    else None
  else None.

(** The day, counted from 1970-01-01, of the last Sunday of a month whose
    last day is [y]-[m]-[d]. *)
Definition lastSunday (y m d : Z) : Z :=
  let last := daysFromCivil y m d in
  (last - (last + 4) mod 7)%Z.

(** The offset of Europe/Oslo from UTC at the instant [t]. *)
Definition osloOffset (t : Z) : Z :=
  let '(y, _, _) := civilFromDays (t / msPerDay) in
  let summerStart := (lastSunday y 3 31 * msPerDay + msPerHour)%Z in
  let summerEnd := (lastSunday y 10 31 * msPerDay + msPerHour)%Z in
  if ((summerStart <=? t) && (t <? summerEnd))%Z
  then (2 * msPerHour)%Z else msPerHour.

Definition digitChar (d : Z) : string :=
  String (ascii_of_nat (48 + Z.to_nat d)) EmptyString.

Definition twoDigits (n : Z) : string :=
  digitChar (n / 10 mod 10) +:+ digitChar (n mod 10).

Definition monthNames : list string :=
  [ "Jan"; "Feb"; "Mar"; "Apr"; "May"; "Jun";
    "Jul"; "Aug"; "Sep"; "Oct"; "Nov"; "Dec" ].

Definition osloParts (t : Z) : DateParts :=
  let local := (t + osloOffset t)%Z in
  let '(_, m, d) := civilFromDays (local / msPerDay) in
  let ms := (local mod msPerDay)%Z in
  mkParts (twoDigits d)
          (default "" (monthNames !! Z.to_nat (m - 1)))
          (twoDigits (ms / msPerHour))
          (twoDigits (ms mod msPerHour / 60000)).

(** ** Upper-casing

    The reference host upper-cases the ASCII letters; the three properties
    a host promises hold of it. *)

Definition isLetter (c : ascii) : bool := isUpper c || isLower c.

Fixpoint noLetters (s : string) : bool :=
  match s with
  | EmptyString => true
  | String c r => negb (isLetter c) && noLetters r
  end.

Definition asciiUpper_noLower : forall s, noLower (toUpperCase s) = true.
Proof.
  induction s as [|c s IH]; [reflexivity|]. cbn [toUpperCase mapChars noLower].
  apply andb_true_iff. split; [|exact IH].
  destruct c as [[] [] [] [] [] [] [] []]; reflexivity.
Qed.

Definition asciiUpper_empty : forall s, toUpperCase s = "" <-> s = "".
Proof. intros [|c s]; split; (reflexivity || discriminate). Qed.

Definition asciiUpper_ends :
  forall s, noSurroundingWhiteSpace s -> noSurroundingWhiteSpace (toUpperCase s).
Proof.
  assert (forall b c, isLetter b = false ->
            Ascii.eqb b (upperChar c) = Ascii.eqb b c) as Hchar.
  { intros b c Hb.
    assert (upperChar c = c \/ (isLetter c = true /\ isLetter (upperChar c) = true))
      as [->|[Hc Hu]]
      by (destruct c as [[] [] [] [] [] [] [] []]; (left; reflexivity) || (right; split; reflexivity)).
    - reflexivity.
    - destruct (Ascii.eqb_spec b (upperChar c)) as [->|_]; [congruence|].
      destruct (Ascii.eqb_spec b c) as [->|_]; [congruence | reflexivity]. }
  assert (forall w, noLetters w = true ->
            forall s, startsWith (toUpperCase s) w = startsWith s w) as Hstart.
  { induction w as [|b w IH]; intros Hw s; [reflexivity|].
    cbn [noLetters] in Hw. apply andb_true_iff in Hw as [Hb Hw].
    apply negb_true_iff in Hb.
    destruct s as [|c s]; [reflexivity|]. cbn [toUpperCase mapChars startsWith].
    rewrite (Hchar b c Hb). f_equal. apply IH. exact Hw. }
  assert (forall ws, forallb noLetters ws = true ->
            forall s, startsWithAny ws (toUpperCase s) = startsWithAny ws s) as Hany.
  { unfold startsWithAny. induction ws as [|w ws IH]; intros Hws s; [reflexivity|].
    cbn [forallb existsb] in *. apply andb_true_iff in Hws as [Hw Hws].
    rewrite (Hstart w Hw), (IH Hws). reflexivity. }
  assert (forall f acc s,
            reverseOnto (mapChars f acc) (mapChars f s) = mapChars f (reverseOnto acc s))
    as Hrev.
  { intros f acc s. revert acc. induction s as [|c s IH]; intros acc; [reflexivity|].
    cbn [mapChars reverseOnto]. apply (IH (String c acc)). }
  intros s [H1 H2]. split.
  - unfold startsWithWhiteSpace. rewrite (Hany whiteSpace eq_refl). exact H1.
  - unfold endsWithWhiteSpace, reverse, toUpperCase.
    pose proof (Hrev upperChar "" s) as Hr. cbn [mapChars] in Hr. rewrite Hr.
    exact (eq_trans (Hany reversedWhiteSpace eq_refl _) H2).
Qed.

Definition host : Host :=
  mkHost xmlParse isoDate osloParts toUpperCase
         asciiUpper_noLower asciiUpper_empty asciiUpper_ends.


End Reference.

(* ===================================================================== *)
(** * Vocabulary of the statements *)
(* ===================================================================== *)

Definition FEED_URL : string :=
  XML_FEED_URL +:+ "?" +:+ "airport=OSL&TimeFrom=1&TimeTo=24".

(** [field] is [raw] without the white space at its two ends. *)
Definition strippedFrom (raw field : string) : Prop :=
  exists pre post,
    JsString.WhiteSpaceOnly pre /\ JsString.WhiteSpaceOnly post /\
    raw = pre +:+ field +:+ post /\
    JsString.noSurroundingWhiteSpace field.

(** [name] holds [kw] as a substring, written in any letter case. *)
Definition containsIgnoringCase (name kw : string) : Prop :=
  exists a w b, name = a +:+ w +:+ b /\ JsString.toLowerCase w = kw.

(** The display name the classifier resolves for a code: the entry of the
    directory, the empty string when there is none; nothing when the key
    reaches a member of [Object.prototype]. *)
Definition resolvedName (airlinesMap : gmap string string) (code : string)
    : option string :=
  match jsGet airlinesMap code with
  | VStr s => Some s
  | VUndefined => Some ""
  | VInherited _ => None
  end.

(** The text of the first [tag] element below [f], as the feed has it. *)
Definition rawText (f : Dom.Node) (tag : string) : string :=
  match Dom.getElementsByTagName f tag with
  | el :: _ => Dom.textContent el
  | [] => ""
  end.

(** The directory entry a source record stands for: its upper-cased code and
    its name, when both attributes are present and not empty. *)
Definition airlineEntry (host : Host) (el : Dom.Node) : option (string * string) :=
  match Dom.getAttribute el "code", Dom.getAttribute el "name" with
  | Some c, Some n =>
      if JsString.truthy c && JsString.truthy n
      then Some (jsToUpperCase host c, n) else None
  | _, _ => None
  end.

(** The names the records of [els] give for the key [K], in source order. *)
Definition namesFor (host : Host) (K : string) (els : list Dom.Node)
    : list string :=
  omap (fun el =>
          match airlineEntry host el with
          | Some (k, n) => if String.eqb k K then Some n else None
          | None => None
          end) els.

(** The instant a flight is scheduled at, when its [scheduleTime] is a
    valid date. *)
Definition instant (host : Host) (f : Flight) : Z :=
  default 0%Z (newDate host (scheduleTime f)).

Definition validSchedule (host : Host) (f : Flight) : Prop :=
  is_Some (newDate host (scheduleTime f)).

(** [a] is scheduled no later than [b]. *)
Definition notLater (host : Host) (a b : Flight) : Prop :=
  (instant host a <= instant host b)%Z.

(** Both requests are answered in [net1] and in [net2], with the same
    bodies; the HTTP statuses may differ. *)
Definition sameBodies (net1 net2 : Network) : Prop :=
  exists r1 a1 r2 a2,
    fetch net1 FEED_URL = Normal r1 /\ fetch net1 AIRLINE_NAMES_URL = Normal a1 /\
    fetch net2 FEED_URL = Normal r2 /\ fetch net2 AIRLINE_NAMES_URL = Normal a2 /\
    text r1 = text r2 /\ text a1 = text a2.

(** The row the [catch] block of [loadFlights] writes for [err]. *)
Definition errorPage (page : Page) (err : JsError) : Page :=
  mkPage [messageRow ("Error fetching flight data: " +:+ errMessage err)]
         (console page ++ [err]).

(** The page shows an error row and nothing else. *)
Definition showsError (page : Page) : Prop :=
  exists msg, tableBody page = [messageRow ("Error fetching flight data: " +:+ msg)].

(** An HTTP status of the success class. *)
Definition isSuccess (r : Response) : bool :=
  ((200 <=? status r) && (status r <=? 299))%Z.

(** The retrieval of one invocation fails with [err]: a request is rejected
    (the first to be, when both are), or the body of a response cannot be
    read. *)
Inductive retrievalFails (net : Network) : JsError -> Prop :=
| flight_request_rejected e :
    fetch net FEED_URL = Throw e ->
    (forall e', fetch net AIRLINE_NAMES_URL = Throw e' -> secondSettlesFirst net = false) ->
    retrievalFails net e
| airlines_request_rejected e :
    fetch net AIRLINE_NAMES_URL = Throw e ->
    (forall e', fetch net FEED_URL = Throw e' -> secondSettlesFirst net = true) ->
    retrievalFails net e
| flight_body_rejected r r' e :
    fetch net FEED_URL = Normal r -> fetch net AIRLINE_NAMES_URL = Normal r' ->
    text r = Throw e ->
    retrievalFails net e
| airlines_body_rejected r r' s e :
    fetch net FEED_URL = Normal r -> fetch net AIRLINE_NAMES_URL = Normal r' ->
    text r = Normal s -> text r' = Throw e ->
    retrievalFails net e.

(** A network whose two requests settle as given. *)
Definition networkOf (flights airlines : Completion Response) (secondFirst : bool)
    : Network :=
  mkNetwork
    (fun url => if String.eqb url AIRLINE_NAMES_URL then airlines else flights)
    secondFirst.

(** The answer of the classifier for a flight whose code resolves in the
    directory: the code is in the static list, or the lower-cased name of
    the directory (the empty string when there is none) holds a keyword. *)
Definition isCargo (airlinesMap : gmap string string) (f : Flight) : bool :=
  inList (airline f) CARGO_CODES
  || existsb (fun kw =>
                JsString.includes
                  (JsString.toLowerCase (default "" (airlinesMap !! airline f))) kw)
             CARGO_KEYWORDS.

(** A time the formatter accepts: absent, empty, or a valid date. *)
Definition formattable (host : Host) (t : option string) : bool :=
  match t with
  | None => true
  | Some s => negb (JsString.truthy s) || bool_decide (is_Some (newDate host s))
  end.

(** A flight whose row can be built: its scheduled time is formattable, and
    so is its status time when its status code is [E]. *)
Definition renders (host : Host) (f : Flight) : bool :=
  formattable host (Some (scheduleTime f))
  && match statusCode f with
     | Some c => if String.eqb c "E" then formattable host (statusTime f) else true
     | None => true
     end.

(** The error of the formatter on an invalid date. *)
Definition invalidTime : JsError := mkError "RangeError" "Invalid time value".

(** A row of six cells that span one column each. *)
Definition isFlightRow (row : Row) : Prop :=
  length row = 6%nat /\ Forall (fun c => colSpan c = 1%nat) row.

Definition noFlightsRow : Row :=
  messageRow "No cargo flights found in the selected timeframe.".

Definition loadingRow : Row := messageRow "Loading flights…".

(** Both requests are answered and both bodies are read: [flightsXml] and
    [airlinesXml] are the two payloads. *)
Definition fetched (net : Network) (flightsXml airlinesXml : string) : Prop :=
  exists r a,
    fetch net FEED_URL = Normal r /\ fetch net AIRLINE_NAMES_URL = Normal a /\
    text r = Normal flightsXml /\ text a = Normal airlinesXml.

(** The cargo flights of an invocation, in the order they are rendered. *)
Definition cargoFlightsOf (host : Host) (flightsXml airlinesXml : string)
    : list Flight :=
  arraySort (bySchedule host)
    (filter (fun f => isCargo (parseAirlineNames host airlinesXml) f = true)
            (parseFlights host flightsXml)).

(* ===================================================================== *)
(** * Strings: facts *)
(* ===================================================================== *)

#[local] Arguments String.append !_ _ / : simpl nomatch.

Section StringFacts.

Import JsString.

Lemma append_empty_r s : s +:+ "" = s.
Proof. induction s as [|c s IH]; simpl; congruence. Qed.

Lemma append_assoc a b c : (a +:+ b) +:+ c = a +:+ b +:+ c.
Proof. induction a as [|x a IH]; simpl; congruence. Qed.

Lemma mapChars_app f a b : mapChars f (a +:+ b) = mapChars f a +:+ mapChars f b.
Proof. induction a as [|x a IH]; simpl; congruence. Qed.

Lemma startsWith_spec s p : startsWith s p = true <-> exists b, s = p +:+ b.
Proof.
  revert s. induction p as [|a p IH]; intros s; simpl.
  - split; [intros _; exists s; reflexivity | reflexivity].
  - destruct s as [|b s]; simpl.
    + split; [discriminate | intros [x Hx]; discriminate].
    + rewrite andb_true_iff, Ascii.eqb_eq, IH. split.
      * intros [-> [x ->]]. exists x. reflexivity.
      * intros [x Hx]. injection Hx as -> ->. split; [reflexivity | eauto].
Qed.

Lemma includes_spec s sub :
  includes s sub = true <-> exists a b, s = a +:+ sub +:+ b.
Proof.
  induction s as [|c s IH].
  - cbn [includes]. rewrite orb_false_r, startsWith_spec. split.
    + intros [b Hb]. exists "", b. exact Hb.
    + intros [a [b Hab]]. destruct a as [|x a]; [eauto | discriminate].
  - cbn [includes]. rewrite orb_true_iff, startsWith_spec, IH. split.
    + intros [[b Hb] | [a [b Hab]]].
      * exists "", b. exact Hb.
      * exists (String c a), b. simpl. congruence.
    + intros [a [b Hab]]. destruct a as [|x a].
      * left. exists b. exact Hab.
      * right. simpl in Hab. injection Hab as _ ->. eauto.
Qed.

Lemma length_append a b :
  String.length (a +:+ b) = (String.length a + String.length b)%nat.
Proof. induction a as [|x a IH]; simpl; congruence. Qed.

Lemma reverseOnto_spec acc s : reverseOnto acc s = reverse s +:+ acc.
Proof.
  unfold reverse. revert acc. induction s as [|c s IH]; intros acc; [reflexivity|].
  cbn [reverseOnto]. rewrite IH, (IH (String c "")), append_assoc. reflexivity.
Qed.

Lemma reverse_cons c s : reverse (String c s) = reverse s +:+ String c "".
Proof. unfold reverse at 1. cbn [reverseOnto]. apply reverseOnto_spec. Qed.

Lemma reverse_app a b : reverse (a +:+ b) = reverse b +:+ reverse a.
Proof.
  induction a as [|c a IH]; simpl.
  - rewrite append_empty_r. reflexivity.
  - rewrite !reverse_cons, IH, append_assoc. reflexivity.
Qed.

Lemma reverse_involutive s : reverse (reverse s) = s.
Proof.
  induction s as [|c s IH]; [reflexivity|].
  rewrite reverse_cons, reverse_app, IH. reflexivity.
Qed.

Lemma length_reverse s : String.length (reverse s) = String.length s.
Proof.
  induction s as [|c s IH]; [reflexivity|].
  rewrite reverse_cons, length_append, IH. simpl. lia.
Qed.

Lemma dropPrefix_Some w s t : dropPrefix w s = Some t <-> s = w +:+ t.
Proof.
  revert s. induction w as [|a w IH]; intros s; simpl.
  - split; [intros [= ->]; reflexivity | intros ->; reflexivity].
  - destruct s as [|b s]; [split; discriminate|].
    destruct (Ascii.eqb_spec a b) as [->|Hne].
    + rewrite IH. split; [intros ->; reflexivity | intros [= ->]; reflexivity].
    + split; [discriminate | intros [= -> _]; contradiction].
Qed.

Lemma dropPrefix_None w s : dropPrefix w s = None -> startsWith s w = false.
Proof.
  intros H. destruct (startsWith s w) eqn:E; [|reflexivity].
  apply startsWith_spec in E as [t Ht]. apply dropPrefix_Some in Ht. congruence.
Qed.

Lemma stripOne_Some ws s t :
  stripOne ws s = Some t -> exists w, w ∈ ws /\ s = w +:+ t.
Proof.
  induction ws as [|w ws IH]; [discriminate|]. cbn [stripOne].
  destruct (dropPrefix w s) as [r|] eqn:E.
  - intros [= ->]. exists w. split; [left | apply dropPrefix_Some; exact E].
  - intros (w' & Hw & Hs)%IH. exists w'. split; [right; exact Hw | exact Hs].
Qed.

Lemma stripOne_None ws s : stripOne ws s = None -> startsWithAny ws s = false.
Proof.
  unfold startsWithAny. induction ws as [|w ws IH]; [reflexivity|]. cbn [stripOne existsb].
  destruct (dropPrefix w s) as [r|] eqn:E; [discriminate|].
  intros H. rewrite (dropPrefix_None _ _ E), (IH H). reflexivity.
Qed.

Lemma stripLeading_spec ws :
  forallb truthy ws = true ->
  forall fuel s,
    (String.length s <= fuel)%nat ->
    exists pre,
      ConcatOf ws pre /\ s = pre +:+ stripLeading fuel ws s
      /\ startsWithAny ws (stripLeading fuel ws s) = false.
Proof.
  intros Hne. induction fuel as [|n IH]; intros s Hlen.
  - destruct s; [|simpl in Hlen; lia]. exists "". split; [constructor|].
    split; [reflexivity|]. cbn [stripLeading]. unfold startsWithAny.
    clear -Hne. induction ws as [|w ws IH]; [reflexivity|].
    cbn [forallb existsb] in *. apply andb_true_iff in Hne as [Hw Hws].
    destruct w; [discriminate|]. rewrite (IH Hws). reflexivity.
  - cbn [stripLeading]. destruct (stripOne ws s) as [r|] eqn:E.
    + apply stripOne_Some in E as (w & Hw & ->).
      assert (truthy w = true) as Hwne.
      { rewrite forallb_forall in Hne. apply Hne, list_elem_of_In, Hw. }
      destruct (IH r) as (pre & Hpre & Hr & Hno).
      { rewrite length_append in Hlen. destruct w; [discriminate|]. simpl in Hlen. lia. }
      exists (w +:+ pre). split; [constructor; assumption|].
      split; [rewrite append_assoc; congruence | exact Hno].
    + exists "". split; [constructor|]. split; [reflexivity|].
      apply stripOne_None. exact E.
Qed.

Lemma ConcatOf_app ws a b : ConcatOf ws a -> ConcatOf ws b -> ConcatOf ws (a +:+ b).
Proof.
  induction 1 as [|w s Hw Hs IH]; intros Hb; [exact Hb|].
  rewrite append_assoc. constructor; auto.
Qed.

Lemma ConcatOf_reverse ws s :
  ConcatOf (map reverse ws) s -> ConcatOf ws (reverse s).
Proof.
  induction 1 as [|w s Hw Hs IH]; [constructor|].
  rewrite reverse_app. apply ConcatOf_app; [exact IH|].
  apply list_elem_of_In, in_map_iff in Hw as (w0 & <- & Hw0).
  rewrite reverse_involutive, <- (append_empty_r w0).
  constructor; [apply list_elem_of_In; exact Hw0 | constructor].
Qed.

Lemma trimStart_spec s :
  exists pre, WhiteSpaceOnly pre /\ s = pre +:+ trimStart s /\
              startsWithWhiteSpace (trimStart s) = false.
Proof. apply (stripLeading_spec whiteSpace eq_refl). lia. Qed.

Lemma trimEnd_spec s :
  exists post, WhiteSpaceOnly post /\ s = trimEnd s +:+ post /\
               endsWithWhiteSpace (trimEnd s) = false.
Proof.
  destruct (stripLeading_spec reversedWhiteSpace eq_refl (String.length s) (reverse s))
    as (pre & Hpre & Hs & Hno); [rewrite length_reverse; lia|].
  exists (reverse pre). split; [apply ConcatOf_reverse; exact Hpre|].
  unfold trimEnd, endsWithWhiteSpace. rewrite reverse_involutive.
  split; [|exact Hno].
  rewrite <- reverse_app, <- Hs, reverse_involutive. reflexivity.
Qed.

Lemma startsWithAny_app ws a b :
  startsWithAny ws a = true -> startsWithAny ws (a +:+ b) = true.
Proof.
  unfold startsWithAny. rewrite !existsb_exists.
  intros (w & Hw & (t & ->)%startsWith_spec). exists w. split; [exact Hw|].
  apply startsWith_spec. exists (t +:+ b). apply append_assoc.
Qed.

Lemma trimEnd_start s :
  startsWithWhiteSpace s = false -> startsWithWhiteSpace (trimEnd s) = false.
Proof.
  intros H. destruct (trimEnd_spec s) as (post & _ & Hs & _).
  destruct (startsWithWhiteSpace (trimEnd s)) eqn:E; [|reflexivity].
  apply (startsWithAny_app _ _ post) in E. unfold startsWithWhiteSpace in H.
  rewrite <- Hs in E. congruence.
Qed.

Lemma trim_stripped s : strippedFrom s (trim s).
Proof.
  unfold trim.
  destruct (trimStart_spec s) as (pre & Hpre & Hs & Hst).
  destruct (trimEnd_spec (trimStart s)) as (post & Hpost & Ht & Hend).
  exists pre, post. repeat split; try assumption.
  - rewrite <- Ht. exact Hs.
  - apply trimEnd_start. exact Hst.
Qed.

Lemma strippedFrom_empty : strippedFrom "" "".
Proof. exists "", "". repeat split; constructor. Qed.

(** A key without lower-case letters is no member of [Object.prototype]. *)
Lemma noLower_not_inherited k :
  noLower k = true -> inList k objectPrototypeKeys = false.
Proof.
  intros Hk. unfold inList, objectPrototypeKeys. cbn [existsb].
  repeat match goal with
  | |- (String.eqb k ?s || _)%bool = false =>
      let E := fresh in
      destruct (String.eqb k s) eqn:E;
      [apply String.eqb_eq in E; subst k; discriminate Hk | cbn [orb]]
  end.
  reflexivity.
Qed.

Lemma noLower_not_proto k : noLower k = true -> String.eqb k "__proto__" = false.
Proof.
  intros Hk. destruct (String.eqb k "__proto__") eqn:E; [|reflexivity].
  apply String.eqb_eq in E. subst k. discriminate Hk.
Qed.

End StringFacts.

(* ===================================================================== *)
(** * The airline directory *)
(* ===================================================================== *)

Section Directory.

Import JsString.

Context (host : Host).

Local Abbreviation upper := (jsToUpperCase host).

Lemma truthy_nonempty s : truthy s = true <-> s <> "".
Proof. destruct s; simpl; split; congruence. Qed.

(** What a record with both attributes set contributes. *)
Lemma airlineEntry_Some el c n :
  Dom.getAttribute el "code" = Some c -> Dom.getAttribute el "name" = Some n ->
  c <> "" -> n <> "" ->
  airlineEntry host el = Some (upper c, n).
Proof.
  intros Hc Hn Hc' Hn'. unfold airlineEntry. rewrite Hc, Hn.
  apply truthy_nonempty in Hc', Hn'. rewrite Hc', Hn'. reflexivity.
Qed.

Lemma airlineEntry_inv el k n :
  airlineEntry host el = Some (k, n) ->
  exists c, Dom.getAttribute el "code" = Some c /\
            Dom.getAttribute el "name" = Some n /\
            c <> "" /\ n <> "" /\ k = upper c.
Proof.
  unfold airlineEntry.
  destruct (Dom.getAttribute el "code") as [c|]; [|discriminate].
  destruct (Dom.getAttribute el "name") as [n'|]; [|discriminate].
  destruct (truthy c) eqn:Hc; [|discriminate].
  destruct (truthy n') eqn:Hn; [|discriminate].
  simpl. intros [= <- <-]. exists c.
  rewrite <- !truthy_nonempty. auto.
Qed.

(** One turn of the loop writes the record's entry, or leaves the map. *)
Lemma addAirlineName_entry map el :
  addAirlineName host map el =
    match airlineEntry host el with
    | Some (k, n) => <[k := n]> map
    | None => map
    end.
Proof.
  unfold addAirlineName, airlineEntry.
  destruct (Dom.getAttribute el "code") as [c|]; [|reflexivity].
  destruct (Dom.getAttribute el "name") as [n|]; [|reflexivity].
  destruct (truthy c && truthy n); [|reflexivity].
  unfold jsSet. rewrite noLower_not_proto; [reflexivity|].
  apply jsToUpperCase_noLower.
Qed.

Lemma namesFor_cons K el els :
  namesFor host K (el :: els) =
    match airlineEntry host el with
    | Some (k, n) => if String.eqb k K then n :: namesFor host K els else namesFor host K els
    | None => namesFor host K els
    end.
Proof.
  unfold namesFor. cbn [omap list_omap].
  destruct (airlineEntry host el) as [[k n]|]; [|reflexivity].
  destruct (String.eqb k K); reflexivity.
Qed.

(** The loop, started on any map: the last name given for a key, or what
    the map held for it. *)
Lemma fold_addAirlineName_lookup els (map : gmap string string) K :
  fold_left (addAirlineName host) els map !! K =
    match last (namesFor host K els) with
    | Some n => Some n
    | None => map !! K
    end.
Proof.
  revert map. induction els as [|el els IH]; intros map; [reflexivity|].
  cbn [fold_left]. rewrite IH, namesFor_cons, addAirlineName_entry.
  destruct (airlineEntry host el) as [[k n]|]; [|reflexivity].
  destruct (String.eqb k K) eqn:E.
  - apply String.eqb_eq in E. subst k. rewrite last_cons.
    destruct (last (namesFor host K els)); [reflexivity|].
    apply lookup_insert_eq.
  - apply String.eqb_neq in E.
    destruct (last (namesFor host K els)); [reflexivity|].
    apply lookup_insert_ne. exact E.
Qed.

Lemma parseAirlineNames_lookup xml K :
  parseAirlineNames host xml !! K =
    last (namesFor host K
            (Dom.docGetElementsByTagName (parseFromString host xml) "airlineName")).
Proof.
  unfold parseAirlineNames. rewrite fold_addAirlineName_lookup.
  rewrite lookup_empty. destruct (last _); reflexivity.
Qed.

Lemma namesFor_app K l1 l2 :
  namesFor host K (l1 ++ l2) = namesFor host K l1 ++ namesFor host K l2.
Proof. apply omap_app. Qed.

Lemma elem_of_namesFor K els n :
  n ∈ namesFor host K els <-> exists el, el ∈ els /\ airlineEntry host el = Some (K, n).
Proof.
  unfold namesFor. rewrite list_elem_of_omap. split.
  - intros (el & Hel & H). exists el. split; [exact Hel|].
    destruct (airlineEntry host el) as [[k m]|]; [|discriminate].
    destruct (String.eqb k K) eqn:E; [|discriminate].
    apply String.eqb_eq in E. congruence.
  - intros (el & Hel & H). exists el. split; [exact Hel|].
    rewrite H, String.eqb_refl. reflexivity.
Qed.

(** The record [el] is the last to give a name for its key. *)
Lemma last_namesFor_split K pre el post n :
  airlineEntry host el = Some (K, n) ->
  (forall el' n', el' ∈ post -> airlineEntry host el' <> Some (K, n')) ->
  last (namesFor host K (pre ++ el :: post)) = Some n.
Proof.
  intros Hel Hpost.
  rewrite namesFor_app, namesFor_cons, Hel, String.eqb_refl.
  assert (namesFor host K post = []) as ->.
  { destruct (namesFor host K post) as [|m l] eqn:E; [reflexivity|].
    assert (m ∈ namesFor host K post) as Hm by (rewrite E; left).
    apply elem_of_namesFor in Hm as (el' & Hin & H').
    exfalso. exact (Hpost el' m Hin H'). }
  apply last_snoc.
Qed.

(** Reading the directory at a key without lower-case letters is reading
    the map. *)
Lemma jsGet_noLower (map : gmap string string) k :
  noLower k = true ->
  jsGet map k = match map !! k with Some v => VStr v | None => VUndefined end.
Proof.
  intros Hk. unfold jsGet. destruct (map !! k); [reflexivity|].
  rewrite noLower_not_inherited by exact Hk. reflexivity.
Qed.

End Directory.

(** C9. The airline directory parser enters [uppercase(code) ↦ name] for
    every source record whose code and name are both present and not empty;
    every entry of the directory comes from such a record, the other records
    being passed over without an error; and when several records give the
    same upper-cased code, the name of the last one is the one kept. *)
Theorem parseAirlineNames_contract host xml :
  let els := Dom.docGetElementsByTagName (parseFromString host xml) "airlineName" in
  let dir := parseAirlineNames host xml in
  (forall el c n,
      el ∈ els ->
      Dom.getAttribute el "code" = Some c -> Dom.getAttribute el "name" = Some n ->
      c <> "" -> n <> "" ->
      is_Some (dir !! jsToUpperCase host c))
  /\ (forall K n,
      dir !! K = Some n ->
      exists el c,
        el ∈ els /\ Dom.getAttribute el "code" = Some c /\
        Dom.getAttribute el "name" = Some n /\
        c <> "" /\ n <> "" /\ K = jsToUpperCase host c)
  /\ (forall pre el post c n,
      els = pre ++ el :: post ->
      Dom.getAttribute el "code" = Some c -> Dom.getAttribute el "name" = Some n ->
      c <> "" -> n <> "" ->
      (forall el' c' n',
          el' ∈ post ->
          Dom.getAttribute el' "code" = Some c' -> Dom.getAttribute el' "name" = Some n' ->
          c' <> "" -> n' <> "" ->
          jsToUpperCase host c' <> jsToUpperCase host c) ->
      dir !! jsToUpperCase host c = Some n).
Proof.
  intros els dir. subst dir. repeat split.
  - intros el c n Hel Hc Hn Hc' Hn'.
    rewrite parseAirlineNames_lookup. fold els. apply last_is_Some.
    intros Hnil.
    assert (n ∈ namesFor host (jsToUpperCase host c) els) as Hin.
    { apply elem_of_namesFor. exists el. split; [exact Hel|].
      apply airlineEntry_Some; assumption. }
    rewrite Hnil in Hin. by apply not_elem_of_nil in Hin.
  - intros K n. rewrite parseAirlineNames_lookup. fold els. intros Hn.
    apply last_Some_elem_of, elem_of_namesFor in Hn as (el & Hel & H).
    apply airlineEntry_inv in H as (c & Hc & Hn & Hc' & Hn' & ->).
    exists el, c. auto 10.
  - intros pre el post c n Hels Hc Hn Hc' Hn' Hlast.
    rewrite parseAirlineNames_lookup. fold els. rewrite Hels.
    apply last_namesFor_split.
    + apply airlineEntry_Some; assumption.
    + intros el' n' Hin H'.
      apply airlineEntry_inv in H' as (c' & Hc1 & Hn1 & Hc2 & Hn2 & Heq).
      exact (Hlast el' c' n' Hin Hc1 Hn1 Hc2 Hn2 (eq_sym Heq)).
Qed.

(** Three records: a lower-case code, a record without a name, and the
    first code again in upper case; the last name is the one kept. *)
Lemma parseAirlineNames_contract_witness :
  parseAirlineNames Reference.host
    "<airlineNames><airlineName code='qr' name='First'/><airlineName code='zz'/><airlineName code='QR' name='Second'/></airlineNames>"
    !! "QR" = Some "Second".
Proof.
  refine (proj2 (proj2 (parseAirlineNames_contract Reference.host _))
            [Dom.Element "airlineName" [("code", "qr"); ("name", "First")] [];
             Dom.Element "airlineName" [("code", "zz")] []]
            (Dom.Element "airlineName" [("code", "QR"); ("name", "Second")] [])
            [] "QR" "Second" _ _ _ _ _ _).
  - reflexivity.
  - reflexivity.
  - reflexivity.
  - discriminate.
  - discriminate.
  - intros el' c' n' Hin. exfalso. exact (not_elem_of_nil el' Hin).
Defined.

(* ===================================================================== *)
(** * The cargo classifier *)
(* ===================================================================== *)

Section Classifier.

Import JsString.

Lemma inList_spec x l : inList x l = true <-> x ∈ l.
Proof.
  unfold inList. rewrite existsb_exists. split.
  - intros (y & Hy & E). apply String.eqb_eq in E. subst y.
    apply list_elem_of_In. exact Hy.
  - intros Hx. exists x. split; [apply list_elem_of_In; exact Hx|].
    apply String.eqb_refl.
Qed.

Lemma mapChars_app_inv f s x y :
  mapChars f s = x +:+ y ->
  exists s1 s2, s = s1 +:+ s2 /\ mapChars f s1 = x /\ mapChars f s2 = y.
Proof.
  revert s. induction x as [|c x IH]; intros s H.
  - exists "", s. auto.
  - destruct s as [|d s]; [discriminate|]. simpl in H.
    injection H as Hc Hs. destruct (IH s Hs) as (s1 & s2 & -> & H1 & H2).
    exists (String d s1), s2. simpl. rewrite Hc, H1. auto.
Qed.

(** The test the classifier runs on the lower-cased name is the search
    for the keyword in any letter case. *)
Lemma includes_toLowerCase name kw :
  includes (toLowerCase name) kw = true <-> containsIgnoringCase name kw.
Proof.
  rewrite includes_spec. unfold containsIgnoringCase, toLowerCase. split.
  - intros (a & b & H).
    apply mapChars_app_inv in H as (s1 & s2 & -> & <- & H2).
    apply mapChars_app_inv in H2 as (w & s3 & -> & Hw & <-).
    exists s1, w, s3. auto.
  - intros (a & w & b & -> & <-).
    exists (mapChars lowerChar a), (mapChars lowerChar b).
    rewrite !mapChars_app. reflexivity.
Qed.

(** With a display name resolved, the classifier returns the disjunction
    of its two tests. *)
Lemma isCargoFlight_resolved flight (airlinesMap : gmap string string) name :
  resolvedName airlinesMap (airline flight) = Some name ->
  isCargoFlight flight airlinesMap =
    Normal (inList (airline flight) CARGO_CODES
            || existsb (fun kw => includes (toLowerCase name) kw) CARGO_KEYWORDS).
Proof.
  unfold resolvedName, isCargoFlight. intros H.
  destruct (inList (airline flight) CARGO_CODES); [reflexivity|].
  destruct (jsGet airlinesMap (airline flight)) as [s| |k]; simplify_eq; simpl.
  - destruct name; reflexivity.
  - reflexivity.
Qed.

(** A code the flight parser produces always resolves. *)
Lemma resolvedName_noLower (airlinesMap : gmap string string) code :
  noLower code = true ->
  resolvedName airlinesMap code = Some (default "" (airlinesMap !! code)).
Proof.
  intros H. unfold resolvedName. rewrite jsGet_noLower by exact H.
  destruct (airlinesMap !! code); reflexivity.
Qed.

End Classifier.

(** C4. A flight whose airline code belongs to the static cargo-code list is
    classified as cargo whatever the directory holds, the empty directory
    included. *)
Theorem isCargoFlight_static_code (flight : Flight) (airlinesMap : gmap string string) :
  airline flight ∈ CARGO_CODES ->
  isCargoFlight flight airlinesMap = Normal true.
Proof.
  intros H. apply inList_spec in H. unfold isCargoFlight. rewrite H. reflexivity.
Qed.

Lemma isCargoFlight_static_code_witness :
  "QR" ∈ CARGO_CODES /\
  isCargoFlight (mkFlight "QR" "QR123" "2024-06-14T08:45:00Z" "A" "DOH" None None) ∅
    = Normal true.
Proof.
  assert ("QR" ∈ CARGO_CODES) as H by (apply inList_spec; reflexivity).
  split; [exact H|].
  exact (isCargoFlight_static_code
           (mkFlight "QR" "QR123" "2024-06-14T08:45:00Z" "A" "DOH" None None) ∅ H).
Defined.

(** C5. When the directory resolves a display name for the flight's code,
    the classifier answers true if that name holds one of the cargo keywords
    as a substring in any letter case, and answers false if the code is not
    in the static list and the name holds none of the keywords. *)
Theorem isCargoFlight_keyword (flight : Flight) (airlinesMap : gmap string string) name :
  resolvedName airlinesMap (airline flight) = Some name ->
  ((exists kw, kw ∈ CARGO_KEYWORDS /\ containsIgnoringCase name kw) ->
     isCargoFlight flight airlinesMap = Normal true)
  /\ (airline flight ∉ CARGO_CODES ->
      (forall kw, kw ∈ CARGO_KEYWORDS -> ~ containsIgnoringCase name kw) ->
      isCargoFlight flight airlinesMap = Normal false).
Proof.
  intros Hname. rewrite (isCargoFlight_resolved _ _ _ Hname). split.
  - intros (kw & Hkw & Hc). f_equal. apply orb_true_iff. right.
    apply existsb_exists. exists kw. split.
    + apply list_elem_of_In. exact Hkw.
    + apply includes_toLowerCase. exact Hc.
  - intros Hcode Hnone. f_equal. apply orb_false_iff. split.
    + destruct (inList (airline flight) CARGO_CODES) eqn:E; [|reflexivity].
      apply inList_spec in E. contradiction.
    + destruct (existsb _ CARGO_KEYWORDS) eqn:E; [|reflexivity].
      apply existsb_exists in E as (kw & Hkw & Hc).
      apply list_elem_of_In in Hkw. apply includes_toLowerCase in Hc.
      exfalso. exact (Hnone kw Hkw Hc).
Qed.

(** The name of the specification's example, under a code that is not in
    the static list. *)
Lemma isCargoFlight_keyword_witness :
  resolvedName {[ "ZZ" := "Qatar Airways Cargo" ]} "ZZ" = Some "Qatar Airways Cargo" /\
  isCargoFlight (mkFlight "ZZ" "ZZ1" "" "D" "DOH" None None)
                {[ "ZZ" := "Qatar Airways Cargo" ]} = Normal true.
Proof.
  assert (resolvedName {[ "ZZ" := "Qatar Airways Cargo" ]} "ZZ"
          = Some "Qatar Airways Cargo") as H by reflexivity.
  split; [exact H|].
  refine (proj1 (isCargoFlight_keyword
                   (mkFlight "ZZ" "ZZ1" "" "D" "DOH" None None) _ _ H) _).
  exists "cargo". split.
  - apply inList_spec. reflexivity.
  - exists "Qatar Airways ", "Cargo", "". split; reflexivity.
Defined.

(* ===================================================================== *)
(** * The flight parser *)
(* ===================================================================== *)

Section FlightParser.

Import JsString.

Lemma getText_stripped f tag : strippedFrom (rawText f tag) (getText f tag).
Proof.
  unfold rawText, getText.
  destruct (Dom.getElementsByTagName f tag) as [|el els].
  - apply strippedFrom_empty.
  - apply trim_stripped.
Qed.

Lemma getText_noSurroundingWhiteSpace f tag :
  noSurroundingWhiteSpace (getText f tag).
Proof. destruct (getText_stripped f tag) as (? & ? & _ & _ & _ & H). exact H. Qed.

Lemma getText_missing f tag : Dom.getElementsByTagName f tag = [] -> getText f tag = "".
Proof. unfold getText. intros ->. reflexivity. Qed.

Lemma elem_of_parseFlights host xml r :
  r ∈ parseFlights host xml <->
  exists f, f ∈ Dom.docGetElementsByTagName (parseFromString host xml) "flight"
            /\ r = flightOfElement host f.
Proof.
  unfold parseFlights. rewrite list_elem_of_fmap. split.
  - intros (f & -> & Hf). eauto.
  - intros (f & Hf & ->). eauto.
Qed.

Lemma parseFlights_lookup host xml i :
  parseFlights host xml !! i =
    flightOfElement host <$>
      Dom.docGetElementsByTagName (parseFromString host xml) "flight" !! i.
Proof. unfold parseFlights. apply list_lookup_fmap. Qed.

(** The airline code of a parsed flight carries no lower-case letter. *)
Lemma parseFlights_airline_noLower host xml r :
  r ∈ parseFlights host xml -> noLower (airline r) = true.
Proof.
  intros (f & _ & ->)%elem_of_parseFlights. apply jsToUpperCase_noLower.
Qed.

End FlightParser.



(** C10. Every text field of a parsed flight record is the text of its
    sub-element in the feed with the white space at both ends taken off (and,
    for the airline code, upper-cased): none of the five fields starts or
    ends with white space. *)
Theorem parseFlights_fields_stripped host xml r :
  r ∈ parseFlights host xml ->
  exists f,
    f ∈ Dom.docGetElementsByTagName (parseFromString host xml) "flight" /\
    (exists code, strippedFrom (rawText f "airline") code
                  /\ airline r = jsToUpperCase host code) /\
    strippedFrom (rawText f "flight_id") (flightId r) /\
    strippedFrom (rawText f "schedule_time") (scheduleTime r) /\
    strippedFrom (rawText f "arr_dep") (arrDep r) /\
    strippedFrom (rawText f "airport") (otherAirport r) /\
    JsString.noSurroundingWhiteSpace (airline r) /\
    JsString.noSurroundingWhiteSpace (flightId r) /\
    JsString.noSurroundingWhiteSpace (scheduleTime r) /\
    JsString.noSurroundingWhiteSpace (arrDep r) /\
    JsString.noSurroundingWhiteSpace (otherAirport r).
Proof.
  intros (f & Hf & ->)%elem_of_parseFlights. exists f.
  cbn [flightOfElement airline flightId scheduleTime arrDep otherAirport].
  split; [exact Hf|].
  split; [exists (getText f "airline"); split; [apply getText_stripped | reflexivity]|].
  repeat (split; [apply getText_stripped|]).
  split; [apply jsToUpperCase_ends|];
    repeat split; apply getText_noSurroundingWhiteSpace.
Qed.

(** A feed whose fields are padded with spaces, a line feed, no-break
    spaces (U+00A0) and an ideographic space (U+3000). *)
Lemma parseFlights_fields_stripped_witness :
  let nbsp := JsString.utf8 160 in
  let wide := JsString.utf8 12288 in
  let xml :=
    "<flights><flight><airline> qr
</airline><flight_id>" +:+ nbsp +:+ " QR123" +:+ nbsp +:+ nbsp
      +:+ "</flight_id><schedule_time> 2024-06-14T08:45:00Z </schedule_time><arr_dep> A</arr_dep><airport>DOH"
      +:+ wide +:+ "</airport></flight></flights>" in
  let r := mkFlight "QR" "QR123" "2024-06-14T08:45:00Z" "A" "DOH" None None in
  r ∈ parseFlights Reference.host xml /\
  JsString.noSurroundingWhiteSpace (airline r) /\
  JsString.noSurroundingWhiteSpace (flightId r) /\
  strippedFrom (nbsp +:+ " QR123" +:+ nbsp +:+ nbsp) (flightId r).
Proof.
  intros nbsp wide xml r.
  assert (r ∈ parseFlights Reference.host xml) as H by (vm_compute; left).
  split; [exact H|].
  destruct (parseFlights_fields_stripped Reference.host xml r H)
    as (f & Hf & _ & Hid & _ & _ & _ & H1 & H2 & _).
  split; [exact H1|]. split; [exact H2|].
  apply list_elem_of_singleton in Hf. subst f. exact Hid.
Defined.

(** C8. A flight element without a [status] sub-element is parsed into a
    record whose [statusCode] and [statusTime] are both absent, and the
    status description of that record is the empty string; neither step
    throws. *)
Theorem parseFlights_missing_status host xml i f :
  Dom.docGetElementsByTagName (parseFromString host xml) "flight" !! i = Some f ->
  Dom.getElementsByTagName f "status" = [] ->
  exists r,
    parseFlights host xml !! i = Some r /\
    statusCode r = None /\ statusTime r = None /\
    getStatusDescription host (statusCode r) (statusTime r) = Normal (VStr "").
Proof.
  intros Hf Hstatus. exists (flightOfElement host f).
  split; [rewrite parseFlights_lookup, Hf; reflexivity|].
  unfold flightOfElement. cbn [statusCode statusTime]. rewrite Hstatus.
  repeat split.
Qed.

Lemma parseFlights_missing_status_witness :
  let xml := "<flights><flight><airline>QR</airline><flight_id>QR123</flight_id></flight></flights>" in
  exists r,
    parseFlights Reference.host xml !! 0%nat = Some r /\
    statusCode r = None /\ statusTime r = None /\
    getStatusDescription Reference.host (statusCode r) (statusTime r) = Normal (VStr "").
Proof.
  intros xml.
  exact (parseFlights_missing_status Reference.host xml 0%nat
           (Dom.Element "flight" []
              [Dom.Element "airline" [] [Dom.Text "QR"];
               Dom.Element "flight_id" [] [Dom.Text "QR123"]])
           eq_refl eq_refl).
Defined.

(** C2, as stated, fails: for a payload that is not XML at all the DOM
    parser hands back its parser-error document, and the flight parser
    returns the empty sequence for it. *)
Lemma parseFlights_silent_on_malformed_feed :
  Dom.hasParserError (parseFromString Reference.host "Service Unavailable") = true /\
  parseFlights Reference.host "Service Unavailable" = [].
Proof. split; reflexivity. Qed.

(** C2, amended. The flight parser does not fail. It returns one record
    per [flight] element of the document the DOM parser hands back, in the
    order of the elements; in each record a text field whose sub-element is
    missing is the empty string, a missing [status] sub-element gives an
    absent code and an absent time, and a [status] sub-element gives its
    [code] and [time] attributes, absent when the attribute is; and for a
    document without [flight] elements it returns the empty sequence. This
    holds for every payload, well-formed or not. *)
Theorem parseFlights_total host xml :
  let els := Dom.docGetElementsByTagName (parseFromString host xml) "flight" in
  length (parseFlights host xml) = length els
  /\ (forall i f,
        els !! i = Some f ->
        exists r,
          parseFlights host xml !! i = Some r
          /\ (Dom.getElementsByTagName f "airline" = [] -> airline r = "")
          /\ (Dom.getElementsByTagName f "flight_id" = [] -> flightId r = "")
          /\ (Dom.getElementsByTagName f "schedule_time" = [] -> scheduleTime r = "")
          /\ (Dom.getElementsByTagName f "arr_dep" = [] -> arrDep r = "")
          /\ (Dom.getElementsByTagName f "airport" = [] -> otherAirport r = "")
          /\ (Dom.getElementsByTagName f "status" = [] ->
              statusCode r = None /\ statusTime r = None)
          /\ (forall el rest,
                Dom.getElementsByTagName f "status" = el :: rest ->
                statusCode r = Dom.getAttribute el "code"
                /\ statusTime r = Dom.getAttribute el "time"))
  /\ (els = [] -> parseFlights host xml = []).
Proof.
  intros els. split; [|split].
  - unfold parseFlights. apply length_fmap.
  - intros i f Hf. exists (flightOfElement host f).
    split; [rewrite parseFlights_lookup; fold els; rewrite Hf; reflexivity|].
    unfold flightOfElement.
    cbn [airline flightId scheduleTime arrDep otherAirport statusCode statusTime].
    split; [intros H; rewrite (getText_missing _ _ H); apply jsToUpperCase_empty;
            reflexivity|].
    do 4 (split; [apply getText_missing|]).
    split.
    + intros ->. split; reflexivity.
    + intros el rest ->. split; reflexivity.
  - intros Hels. unfold parseFlights. fold els. rewrite Hels. reflexivity.
Qed.

(** A flight element with an airline and a status without a time, and an
    unparseable payload. *)
Lemma parseFlights_total_witness :
  (exists r,
      parseFlights Reference.host
        "<flights><flight><airline>QR</airline><status code='A'/></flight></flights>"
        !! 0%nat = Some r
      /\ flightId r = "" /\ scheduleTime r = "" /\ statusCode r = Some "A"
      /\ statusTime r = None)
  /\ parseFlights Reference.host "<html>Bad Gateway" = [].
Proof.
  split.
  - destruct (proj1 (proj2 (parseFlights_total Reference.host
                "<flights><flight><airline>QR</airline><status code='A'/></flight></flights>"))
                0%nat
                (Dom.Element "flight" []
                   [Dom.Element "airline" [] [Dom.Text "QR"];
                    Dom.Element "status" [("code", "A")] []])
                eq_refl)
      as (r & Hr & _ & Hid & Htime & _ & _ & _ & Hstatus).
    exists r. split; [exact Hr|].
    split; [exact (Hid eq_refl)|]. split; [exact (Htime eq_refl)|].
    exact (Hstatus _ _ eq_refl).
  - exact (proj2 (proj2 (parseFlights_total Reference.host "<html>Bad Gateway")) eq_refl).
Defined.

(* ===================================================================== *)
(** * Status descriptions *)
(* ===================================================================== *)

(** C3, as stated, fails: for the code [E] without a time the description
    is [New time], with no space after it. *)
Lemma getStatusDescription_newtime_no_trailing_space :
  getStatusDescription Reference.host (Some "E") None = Normal (VStr "New time") /\
  getStatusDescription Reference.host (Some "E") None <> Normal (VStr "New time ").
Proof. split; [reflexivity | discriminate]. Qed.

(** C3, amended. When the status code is [E] (new time) and the status time
    is absent or empty, the description is the string [New time]: no
    timestamp follows and no space is left at the end. *)
Theorem getStatusDescription_newtime_without_time host time :
  truthyOpt time = false ->
  getStatusDescription host (Some "E") time = Normal (VStr "New time").
Proof.
  intros H. unfold getStatusDescription. cbn [JsString.truthy negb].
  rewrite H. reflexivity.
Qed.

Lemma getStatusDescription_newtime_without_time_witness :
  truthyOpt None = false /\
  getStatusDescription Reference.host (Some "E") None = Normal (VStr "New time").
Proof.
  split; [reflexivity|].
  exact (getStatusDescription_newtime_without_time Reference.host None eq_refl).
Defined.

(* ===================================================================== *)
(** * Sorting by scheduled time *)
(* ===================================================================== *)

Section Sorting.

Context (host : Host).

Local Abbreviation cmp := (bySchedule host).
Local Abbreviation at_ := (instant host).
Local Abbreviation valid := (validSchedule host).
Local Abbreviation earlier := (notLater host).

Lemma sortCompare_valid a b :
  valid a -> valid b -> sortCompare cmp a b = (at_ a - at_ b)%Z.
Proof.
  unfold validSchedule, sortCompare, bySchedule, instant.
  intros [x ->] [y ->]. reflexivity.
Qed.

Lemma sortedInsert_perm {A} (c : A -> A -> option Z) x l :
  x :: l ≡ₚ sortedInsert c x l.
Proof.
  induction l as [|y l IH]; cbn [sortedInsert]; [reflexivity|].
  destruct (sortCompare c x y <=? 0)%Z; [reflexivity|].
  rewrite <- IH. apply perm_swap.
Qed.

Lemma arraySort_perm {A} (c : A -> A -> option Z) l : l ≡ₚ arraySort c l.
Proof.
  induction l as [|x l IH]; [reflexivity|].
  unfold arraySort in *. cbn [fold_right].
  rewrite <- sortedInsert_perm. constructor. exact IH.
Qed.

Lemma sortedInsert_sorted x l :
  valid x -> Forall valid l ->
  StronglySorted earlier l -> StronglySorted earlier (sortedInsert cmp x l).
Proof.
  intros Hx. induction l as [|y l IH]; intros Hl Hs; cbn [sortedInsert].
  - repeat constructor.
  - apply Forall_cons in Hl as [Hy Hl].
    apply StronglySorted_inv in Hs as [Hs Hall].
    rewrite sortCompare_valid by assumption.
    destruct (Z.leb_spec (at_ x - at_ y) 0) as [Hle|Hgt].
    + constructor; [constructor; assumption|].
      constructor; [unfold notLater; lia|].
      eapply Forall_impl; [exact Hall|]. unfold notLater. intros z Hz. lia.
    + constructor; [apply IH; assumption|].
      rewrite <- sortedInsert_perm. constructor; [unfold notLater; lia | exact Hall].
Qed.

Lemma arraySort_valid l : Forall valid l -> Forall valid (arraySort cmp l).
Proof. intros H. rewrite <- arraySort_perm. exact H. Qed.

Lemma arraySort_sorted l :
  Forall valid l -> StronglySorted earlier (arraySort cmp l).
Proof.
  induction l as [|x l IH]; intros Hl; [constructor|].
  apply Forall_cons in Hl as [Hx Hl].
  change (StronglySorted earlier (sortedInsert cmp x (arraySort cmp l))).
  apply sortedInsert_sorted; [exact Hx | apply arraySort_valid; exact Hl | auto].
Qed.

(** Inserting a flight moves it past strictly earlier flights only, so the
    flights of one instant keep their order. *)
Lemma sortedInsert_filter t x l :
  valid x -> Forall valid l ->
  filter (fun f => at_ f = t) (sortedInsert cmp x l)
    = filter (fun f => at_ f = t) (x :: l).
Proof.
  intros Hx. induction l as [|y l IH]; intros Hl; cbn [sortedInsert]; [reflexivity|].
  apply Forall_cons in Hl as [Hy Hl].
  rewrite sortCompare_valid by assumption.
  destruct (Z.leb_spec (at_ x - at_ y) 0) as [Hle|Hgt]; [reflexivity|].
  rewrite (filter_cons _ y), IH by exact Hl.
  rewrite (filter_cons _ x (y :: l)), (filter_cons _ y l), (filter_cons _ x l).
  destruct (decide (at_ y = t)) as [Hyt|Hyt]; [|reflexivity].
  destruct (decide (at_ x = t)) as [Hxt|Hxt]; [lia | reflexivity].
Qed.

Lemma arraySort_filter t l :
  Forall valid l ->
  filter (fun f => at_ f = t) (arraySort cmp l) = filter (fun f => at_ f = t) l.
Proof.
  induction l as [|x l IH]; intros Hl; [reflexivity|].
  apply Forall_cons in Hl as [Hx Hl].
  change (arraySort cmp (x :: l)) with (sortedInsert cmp x (arraySort cmp l)).
  rewrite sortedInsert_filter by (try apply arraySort_valid; assumption).
  rewrite !filter_cons, IH by exact Hl. reflexivity.
Qed.

(** Three flights of increasing instants admit one sorted arrangement. *)
Lemma sorted_three f1 f2 f3 l :
  l ≡ₚ [f1; f2; f3] -> (at_ f1 < at_ f2 < at_ f3)%Z ->
  StronglySorted earlier l -> l = [f1; f2; f3].
Proof.
  intros Hp Hlt Hs. symmetry in Hp.
  apply permutations_Permutation in Hp. cbn in Hp.
  repeat (apply elem_of_cons in Hp as [->|Hp]); try reflexivity;
    try (exfalso; exact (not_elem_of_nil _ Hp));
    exfalso;
    repeat match goal with
    | H : StronglySorted _ (_ :: _) |- _ =>
        apply StronglySorted_inv in H as [? ?]
    | H : Forall _ (_ :: _) |- _ => apply Forall_cons in H as [? ?]
    end;
    unfold notLater in *; lia.
Qed.

End Sorting.

(* ===================================================================== *)
(** * The pipeline *)
(* ===================================================================== *)

Section Pipeline.

Context (host : Host).

(** The [try] block, with the request of the flight feed named. *)
Lemma loadFlightsTry_requests net rows :
  loadFlightsTry host net rows =
    match
      '(flightRes, airlinesRes) ←
         promiseAll (secondSettlesFirst net)
           (fetch net FEED_URL) (fetch net AIRLINE_NAMES_URL);
      flightsXml ← text flightRes;
      airlinesXml ← text airlinesRes;
      let airlinesMap := parseAirlineNames host airlinesXml in
      let allFlights := parseFlights host flightsXml in
      cargoFlights ←
        arrayFilter (fun flight => isCargoFlight flight airlinesMap) allFlights;
      Normal (arraySort (bySchedule host) cargoFlights, airlinesMap)
    with
    | Normal (cargoFlights, airlinesMap) => renderFlights host cargoFlights airlinesMap rows
    | Throw e => (Throw e, rows)
    end.
Proof. reflexivity. Qed.

(** A failed retrieval ends the [try] block with its error, the rows
    untouched. *)
Lemma loadFlightsTry_failure net rows err :
  retrievalFails net err -> loadFlightsTry host net rows = (Throw err, rows).
Proof.
  intros H. rewrite loadFlightsTry_requests.
  destruct H as [e Hf Hfirst | e Ha Hfirst | r a e Hf Ha Ht | r a s e Hf Ha Ht Ht'].
  - rewrite Hf. destruct (fetch net AIRLINE_NAMES_URL) as [a|e'] eqn:Ha; [reflexivity|].
    cbn. rewrite (Hfirst e' eq_refl). reflexivity.
  - rewrite Ha. destruct (fetch net FEED_URL) as [r|e'] eqn:Hf; [reflexivity|].
    cbn. rewrite (Hfirst e' eq_refl). reflexivity.
  - rewrite Hf, Ha. cbn. rewrite Ht. reflexivity.
  - rewrite Hf, Ha. cbn. rewrite Ht. cbn. rewrite Ht'. reflexivity.
Qed.

Lemma loadFlights_failure net page err :
  retrievalFails net err -> loadFlights host net page = errorPage page err.
Proof.
  intros H. unfold loadFlights. rewrite (loadFlightsTry_failure _ _ _ H).
  reflexivity.
Qed.

(** Whenever a request is rejected or a body cannot be read, the retrieval
    fails with one definite error. *)
Lemma retrievalFails_covers net :
  (exists e, fetch net FEED_URL = Throw e)
  \/ (exists e, fetch net AIRLINE_NAMES_URL = Throw e)
  \/ (exists r e, fetch net FEED_URL = Normal r /\ text r = Throw e)
  \/ (exists a e, fetch net AIRLINE_NAMES_URL = Normal a /\ text a = Throw e) ->
  exists err, retrievalFails net err.
Proof.
  intros H.
  destruct (fetch net FEED_URL) as [r|e1] eqn:Hf;
    destruct (fetch net AIRLINE_NAMES_URL) as [a|e2] eqn:Ha.
  - destruct (text r) as [s|e] eqn:Ht.
    + destruct (text a) as [s'|e] eqn:Ht'.
      * exfalso. destruct H as [[e H]|[[e H]|[(r' & e & H & H')|(a' & e & H & H')]]];
          simplify_eq; congruence.
      * exists e. eapply airlines_body_rejected; eauto.
    + exists e. eapply flight_body_rejected; eauto.
  - exists e2. apply airlines_request_rejected; [exact Ha|]. intros e'. congruence.
  - exists e1. apply flight_request_rejected; [exact Hf|]. intros e'. congruence.
  - destruct (secondSettlesFirst net) eqn:Hs.
    + exists e2. apply airlines_request_rejected; [exact Ha|]. intros _ _. exact Hs.
    + exists e1. apply flight_request_rejected; [exact Hf|]. intros _ _. exact Hs.
Qed.

(** The statuses of the responses are not read. *)
Lemma loadFlights_sameBodies net1 net2 page :
  sameBodies net1 net2 -> loadFlights host net1 page = loadFlights host net2 page.
Proof.
  intros (r1 & a1 & r2 & a2 & Hr1 & Ha1 & Hr2 & Ha2 & Hr & Ha).
  unfold loadFlights. rewrite !loadFlightsTry_requests.
  rewrite Hr1, Ha1, Hr2, Ha2. cbn. rewrite Hr, Ha. reflexivity.
Qed.

End Pipeline.

(** C1, as stated, fails. A response with a non-success status is fetched,
    read and parsed like any other, and a payload that cannot be parsed
    gives no records: in both cases the table ends with the row for an empty
    result, not with an error. *)
Lemma loadFlights_ignores_status_and_parse_errors :
  let ok body := Normal (mkResponse 200 (Normal body)) in
  let notFound := mkResponse 404 (Normal "Not Found") in
  let errorBody := "<html><body>Rate limit exceeded<br></body></html>" in
  let emptyResult :=
    mkPage [messageRow "No cargo flights found in the selected timeframe."] [] in
  let page0 := mkPage [] [] in
  isSuccess notFound = false
  /\ loadFlights Reference.host
       (networkOf (Normal notFound) (ok "<airlineNames/>") false) page0 = emptyResult
  /\ Dom.hasParserError (parseFromString Reference.host errorBody) = true
  /\ loadFlights Reference.host
       (networkOf (ok errorBody) (ok "<airlineNames/>") false) page0 = emptyResult
  /\ ~ showsError emptyResult.
Proof.
  repeat split; try reflexivity.
  intros [msg H]. cbn in H. discriminate H.
Qed.

(** The scenario of the specification: one flight of a carrier of the static
    list, an empty directory. *)
Example loadFlights_scenario :
  let feed := "<airport><flights><flight uniqueID='1'><airline>QR</airline><flight_id>QR123</flight_id><schedule_time>2024-06-14T08:45:00Z</schedule_time><arr_dep>A</arr_dep><airport>DOH</airport><status code='E' time='2024-06-14T09:00:00Z'/></flight></flights></airport>" in
  let ok body := Normal (mkResponse 200 (Normal body)) in
  tableBody (loadFlights Reference.host
               (networkOf (ok feed) (ok "<airlineNames/>") false) (mkPage [] []))
  = [ [ textCell (VStr "14 Jun 10:45"); textCell (VStr "QR"); textCell (VStr "QR123");
        textCell (VStr "Arrival"); textCell (VStr "DOH");
        textCell (VStr "New time 14 Jun 11:00") ] ].
Proof. reflexivity. Qed.

(* ===================================================================== *)
(** * Time and status formatting: outcomes *)
(* ===================================================================== *)

Section Formatting.

Context (host : Host).

Lemma formattable_spec t :
  formattable host t = false <->
  exists s, t = Some s /\ s <> "" /\ newDate host s = None.
Proof.
  unfold formattable. destruct t as [s|].
  - destruct s as [|c s]; cbn [JsString.truthy negb orb].
    + split; [discriminate | intros (s' & [= <-] & H & _); contradiction].
    + rewrite bool_decide_eq_false. split.
      * intros H. exists (String c s). repeat split; [discriminate|].
        destruct (newDate host (String c s)); [exfalso; eauto | reflexivity].
      * intros (s' & [= <-] & _ & H) [d Hd]. congruence.
  - split; [discriminate | intros (s & H & _); discriminate].
Qed.

Lemma formatLocalTime_formattable t :
  formattable host t = true -> exists s, formatLocalTime host t = Normal s.
Proof.
  unfold formattable, formatLocalTime. destruct t as [s|]; [|eauto].
  destruct (JsString.truthy s); cbn [negb orb]; [|eauto].
  rewrite bool_decide_eq_true. intros [d ->]. eauto.
Qed.

Lemma formatLocalTime_not_formattable t :
  formattable host t = false -> formatLocalTime host t = Throw invalidTime.
Proof.
  intros (s & -> & Hs & Hd)%formattable_spec. unfold formatLocalTime.
  apply truthy_nonempty in Hs. rewrite Hs, Hd. reflexivity.
Qed.

Lemma statusMap_lookup_other c :
  c ∉ ["A"; "C"; "D"; "E"; "N"] -> statusMap !! c = None.
Proof. intros H. apply not_elem_of_list_to_map_1. exact H. Qed.

End Formatting.

(** X1. [formatLocalTime] returns the empty string for an absent or empty
    time, the parts of the formatter joined as [DD Mon HH:MM] for a valid
    date, and throws the RangeError of the formatter for a non-empty string
    that is not a valid date, and in no other case. *)
Theorem formatLocalTime_outcomes host t :
  (truthyOpt t = false -> formatLocalTime host t = Normal "")
  /\ (forall s d,
        t = Some s -> s <> "" -> newDate host s = Some d ->
        let p := formatToParts host d in
        formatLocalTime host t =
          Normal (partDay p +:+ " " +:+ partMonth p +:+ " "
                    +:+ partHour p +:+ ":" +:+ partMinute p))
  /\ ((exists e, formatLocalTime host t = Throw e) <->
      exists s, t = Some s /\ s <> "" /\ newDate host s = None)
  /\ (forall e, formatLocalTime host t = Throw e -> e = invalidTime).
Proof.
  repeat split.
  - destruct t as [[|c s]|]; [reflexivity | discriminate | reflexivity].
  - intros s d -> Hs Hd. unfold formatLocalTime.
    apply truthy_nonempty in Hs. rewrite Hs, Hd. reflexivity.
  - intros [e He]. apply formattable_spec.
    destruct (formattable host t) eqn:E; [|reflexivity].
    destruct (formatLocalTime_formattable host t E) as [s Hs]. congruence.
  - intros H%formattable_spec. exists invalidTime.
    apply formatLocalTime_not_formattable. exact H.
  - intros e He. destruct (formattable host t) eqn:E.
    + destruct (formatLocalTime_formattable host t E) as [s Hs]. congruence.
    + rewrite (formatLocalTime_not_formattable host t E) in He. congruence.
Qed.

Lemma formatLocalTime_outcomes_witness :
  formatLocalTime Reference.host (Some "2024-06-14T08:45:00Z") = Normal "14 Jun 10:45"
  /\ exists e, formatLocalTime Reference.host (Some "tomorrow") = Throw e.
Proof.
  split.
  - exact (proj1 (proj2 (formatLocalTime_outcomes Reference.host
                           (Some "2024-06-14T08:45:00Z")))
             "2024-06-14T08:45:00Z" 1718354700000%Z eq_refl
             ltac:(discriminate) eq_refl).
  - apply (proj2 (proj1 (proj2 (proj2 (formatLocalTime_outcomes Reference.host
                                         (Some "tomorrow")))))).
    exists "tomorrow". repeat split. discriminate.
Defined.

(** X2. [getStatusDescription] throws exactly when the code is [E] and the
    time is a non-empty string that is not a valid date; the error is then
    the RangeError of the formatter. For every other code the time is not
    looked at. *)
Theorem getStatusDescription_throws_iff host code time :
  ((exists e, getStatusDescription host code time = Throw e) <->
   code = Some "E" /\ exists s, time = Some s /\ s <> "" /\ newDate host s = None)
  /\ (forall e, getStatusDescription host code time = Throw e -> e = invalidTime)
  /\ (code <> Some "E" ->
      forall time2, getStatusDescription host code time2
                    = getStatusDescription host code time).
Proof.
  assert (forall c, String.eqb c "E" = false -> forall t,
            getStatusDescription host (Some c) t
            = if negb (JsString.truthy c) then Normal (VStr "")
              else Normal (orElse (jsGet statusMap c) c)) as Hother.
  { intros c Hc t. unfold getStatusDescription. rewrite Hc. reflexivity. }
  assert (forall t, getStatusDescription host (Some "E") t
                    = if truthyOpt t
                      then t' ← formatLocalTime host t; Normal (VStr ("New time " +:+ t'))
                      else Normal (VStr "New time")) as HE.
  { intros t. unfold getStatusDescription. cbn. destruct (truthyOpt t); reflexivity. }
  destruct code as [c|].
  2:{ split; [split|split].
      - intros [e He]. discriminate He.
      - intros [H _]. discriminate H.
      - intros e He. discriminate He.
      - intros _ time2. reflexivity. }
  destruct (String.eqb c "E") eqn:Ec.
  - apply String.eqb_eq in Ec. subst c. rewrite HE. split; [split|split].
    + intros [e He]. split; [reflexivity|].
      destruct (truthyOpt time) eqn:Et; [|discriminate].
      apply formattable_spec. destruct (formattable host time) eqn:Ef; [|reflexivity].
      destruct (formatLocalTime_formattable host time Ef) as [s Hs].
      rewrite Hs in He. discriminate He.
    + intros [_ (s & -> & Hs & Hd)]. exists invalidTime.
      cbn [truthyOpt]. apply truthy_nonempty in Hs. rewrite Hs.
      unfold formatLocalTime. rewrite Hs, Hd. reflexivity.
    + intros e. destruct (truthyOpt time); [|discriminate].
      destruct (formattable host time) eqn:Ef.
      * destruct (formatLocalTime_formattable host time Ef) as [s ->]. discriminate.
      * rewrite (formatLocalTime_not_formattable host time Ef). cbn. congruence.
    + intros H. contradiction.
  - rewrite (Hother c Ec). split; [split|split].
    + intros [e He]. destruct (negb (JsString.truthy c)); discriminate.
    + intros [[= ->] _]. discriminate Ec.
    + intros e. destruct (negb (JsString.truthy c)); discriminate.
    + intros _ time2. rewrite (Hother c Ec). reflexivity.
Qed.

Lemma getStatusDescription_throws_iff_witness :
  (exists e, getStatusDescription Reference.host (Some "E") (Some "soon") = Throw e)
  /\ getStatusDescription Reference.host (Some "D") (Some "soon")
     = getStatusDescription Reference.host (Some "D") None.
Proof.
  split.
  - apply (proj2 (proj1 (getStatusDescription_throws_iff Reference.host
                           (Some "E") (Some "soon")))).
    split; [reflexivity|]. exists "soon". repeat split. discriminate.
  - exact (proj2 (proj2 (getStatusDescription_throws_iff Reference.host
                           (Some "D") None))
             ltac:(discriminate) (Some "soon")).
Defined.

(** X3. A status code that is not empty, is none of [A], [C], [D], [E], [N]
    and names no member of [Object.prototype] is its own description,
    whatever the time. *)
Theorem getStatusDescription_passes_unknown_code host c time :
  c <> "" -> c ∉ ["A"; "C"; "D"; "E"; "N"] ->
  inList c objectPrototypeKeys = false ->
  getStatusDescription host (Some c) time = Normal (VStr c).
Proof.
  intros Hc Hknown Hproto. unfold getStatusDescription.
  apply truthy_nonempty in Hc. rewrite Hc. cbn [negb].
  assert (String.eqb c "E" = false) as ->.
  { apply String.eqb_neq. intros ->. apply Hknown. set_solver. }
  unfold jsGet. rewrite (statusMap_lookup_other c Hknown), Hproto.
  reflexivity.
Qed.

Lemma getStatusDescription_passes_unknown_code_witness :
  getStatusDescription Reference.host (Some "Boarding") (Some "2024-06-14T08:45:00Z")
    = Normal (VStr "Boarding").
Proof.
  apply getStatusDescription_passes_unknown_code.
  - discriminate.
  - intros H. repeat (apply elem_of_cons in H as [H|H]; [discriminate H|]).
    exact (not_elem_of_nil _ H).
  - reflexivity.
Defined.

(* ===================================================================== *)
(** * The classifier on the flights of the parser *)
(* ===================================================================== *)

Section ClassifierOutcomes.

Import JsString.


(** A predicate that never throws filters as its boolean does. *)
Lemma arrayFilter_pure {A} (f : A -> Completion bool) (g : A -> bool) l :
  (forall x, x ∈ l -> f x = Normal (g x)) ->
  arrayFilter f l = Normal (filter (fun x => g x = true) l).
Proof.
  induction l as [|x l IH]; intros H; [reflexivity|].
  cbn [arrayFilter]. rewrite (H x) by left.
  rewrite IH by (intros y Hy; apply H; right; exact Hy).
  rewrite filter_cons. destruct (g x); reflexivity.
Qed.

Lemma isCargoFlight_noLower flight (airlinesMap : gmap string string) :
  noLower (airline flight) = true ->
  isCargoFlight flight airlinesMap = Normal (isCargo airlinesMap flight).
Proof.
  intros H. apply isCargoFlight_resolved, resolvedName_noLower. exact H.
Qed.

Lemma inherited_not_cargo_code k :
  inList k objectPrototypeKeys = true -> inList k CARGO_CODES = false.
Proof.
  intros H. apply inList_spec in H. unfold objectPrototypeKeys in H.
  repeat (apply elem_of_cons in H as [->|H]; [reflexivity|]).
  exfalso. exact (not_elem_of_nil _ H).
Qed.

Lemma no_keyword_in_empty :
  existsb (fun kw => includes (toLowerCase "") kw) CARGO_KEYWORDS = false.
Proof. reflexivity. Qed.

End ClassifierOutcomes.

(** X4. The classifier does not throw on a flight of the flight parser,
    whatever the directory: it returns the disjunction of its two tests. The
    filter of [loadFlights] therefore keeps, in feed order, exactly the
    parsed flights for which that disjunction holds. *)
Theorem isCargoFlight_on_parsed_flights host xml (airlinesMap : gmap string string) :
  (forall r, r ∈ parseFlights host xml ->
             isCargoFlight r airlinesMap = Normal (isCargo airlinesMap r))
  /\ arrayFilter (fun f => isCargoFlight f airlinesMap) (parseFlights host xml)
     = Normal (filter (fun f => isCargo airlinesMap f = true) (parseFlights host xml)).
Proof.
  assert (forall r, r ∈ parseFlights host xml ->
            isCargoFlight r airlinesMap = Normal (isCargo airlinesMap r)) as H.
  { intros r Hr. apply isCargoFlight_noLower.
    exact (parseFlights_airline_noLower host xml r Hr). }
  split; [exact H|]. apply arrayFilter_pure. exact H.
Qed.

Lemma isCargoFlight_on_parsed_flights_witness :
  let xml := "<flights><flight><airline>sk</airline></flight><flight><airline>qr</airline></flight><flight><airline>constructor</airline></flight></flights>" in
  arrayFilter (fun f => isCargoFlight f ∅) (parseFlights Reference.host xml)
  = Normal [mkFlight "QR" "" "" "" "" None None].
Proof.
  intros xml.
  exact (proj2 (isCargoFlight_on_parsed_flights Reference.host xml ∅)).
Defined.



(** X6. Given directly a flight whose code names a member of
    [Object.prototype] (as [constructor] or [toString]) and has no entry in
    the directory, the classifier throws a TypeError: the lookup yields the
    inherited member, which has no [toLowerCase]. *)
Theorem isCargoFlight_inherited_key_throws (flight : Flight)
    (airlinesMap : gmap string string) :
  inList (airline flight) objectPrototypeKeys = true ->
  airlinesMap !! airline flight = None ->
  exists e, isCargoFlight flight airlinesMap = Throw e /\ errName e = "TypeError".
Proof.
  intros Hk Hm. unfold isCargoFlight, jsGet.
  rewrite (inherited_not_cargo_code _ Hk), Hm, Hk. cbn. eauto.
Qed.

Lemma isCargoFlight_inherited_key_throws_witness :
  exists e,
    isCargoFlight (mkFlight "constructor" "X1" "" "A" "OSL" None None) ∅ = Throw e
    /\ errName e = "TypeError".
Proof.
  exact (isCargoFlight_inherited_key_throws
           (mkFlight "constructor" "X1" "" "A" "OSL" None None) ∅ eq_refl eq_refl).
Defined.

(** X7. A flight whose code has no entry in the directory (and names no
    member of [Object.prototype]) is cargo exactly when its code is in the
    static list: the empty name holds no keyword. In particular, with an
    empty directory the static list alone decides. *)
Theorem isCargoFlight_unlisted_airline (flight : Flight)
    (airlinesMap : gmap string string) :
  airlinesMap !! airline flight = None ->
  inList (airline flight) objectPrototypeKeys = false ->
  (airline flight ∈ CARGO_CODES -> isCargoFlight flight airlinesMap = Normal true)
  /\ (airline flight ∉ CARGO_CODES -> isCargoFlight flight airlinesMap = Normal false).
Proof.
  intros Hm Hk.
  assert (isCargoFlight flight airlinesMap
          = Normal (inList (airline flight) CARGO_CODES)) as ->.
  { rewrite (isCargoFlight_resolved flight airlinesMap "").
    - rewrite no_keyword_in_empty, orb_false_r. reflexivity.
    - unfold resolvedName, jsGet. rewrite Hm, Hk. reflexivity. }
  split; intros H.
  - apply inList_spec in H. rewrite H. reflexivity.
  - destruct (inList (airline flight) CARGO_CODES) eqn:E; [|reflexivity].
    apply inList_spec in E. contradiction.
Qed.

Lemma isCargoFlight_unlisted_airline_witness :
  isCargoFlight (mkFlight "SK" "SK4035" "" "D" "TOS" None None)
                {[ "LH" := "Lufthansa Cargo" ]} = Normal false.
Proof.
  refine (proj2 (isCargoFlight_unlisted_airline
                   (mkFlight "SK" "SK4035" "" "D" "TOS" None None)
                   {[ "LH" := "Lufthansa Cargo" ]} eq_refl eq_refl) _).
  intros H. apply inList_spec in H. discriminate H.
Defined.

(* ===================================================================== *)
(** * The directory: invariants *)
(* ===================================================================== *)



(** X9. The parsed directory is empty exactly when no source record has
    both a non-empty code and a non-empty name; in particular a payload
    without [airlineName] elements gives the empty directory. *)
Theorem parseAirlineNames_empty_iff host xml :
  let els := Dom.docGetElementsByTagName (parseFromString host xml) "airlineName" in
  (parseAirlineNames host xml = ∅ <->
   forall el c n,
     el ∈ els ->
     Dom.getAttribute el "code" = Some c -> Dom.getAttribute el "name" = Some n ->
     c = "" \/ n = "")
  /\ (els = [] -> parseAirlineNames host xml = ∅).
Proof.
  intros els.
  assert ((forall el, el ∈ els -> airlineEntry host el = None) ->
          parseAirlineNames host xml = ∅) as Hempty.
  { intros H. apply map_empty. intros K. rewrite parseAirlineNames_lookup. fold els.
    apply last_None. destruct (namesFor host K els) as [|n l] eqn:E; [reflexivity|].
    assert (n ∈ namesFor host K els) as Hn by (rewrite E; left).
    apply elem_of_namesFor in Hn as (el & Hel & Hentry).
    rewrite (H el Hel) in Hentry. discriminate Hentry. }
  split; [split|].
  - intros Hdir el c n Hel Hc Hn.
    destruct (decide (c = "")) as [|Hc']; [left; assumption|].
    destruct (decide (n = "")) as [|Hn']; [right; assumption|].
    exfalso.
    assert (n ∈ namesFor host (jsToUpperCase host c) els) as Hin.
    { apply elem_of_namesFor. exists el. split; [exact Hel|].
      apply airlineEntry_Some; assumption. }
    assert (is_Some (parseAirlineNames host xml !! jsToUpperCase host c)) as [m Hm].
    { rewrite parseAirlineNames_lookup. fold els. apply last_is_Some.
      intros Hnil. rewrite Hnil in Hin. exact (not_elem_of_nil _ Hin). }
    rewrite Hdir, lookup_empty in Hm. discriminate Hm.
  - intros H. apply Hempty. intros el Hel.
    destruct (airlineEntry host el) as [[k n]|] eqn:E; [|reflexivity].
    apply airlineEntry_inv in E as (c & Hc & Hn & Hc' & Hn' & _).
    destruct (H el c n Hel Hc Hn); contradiction.
  - intros Hels. apply Hempty. intros el Hel. rewrite Hels in Hel.
    exfalso. exact (not_elem_of_nil _ Hel).
Qed.

Lemma parseAirlineNames_empty_iff_witness :
  parseAirlineNames Reference.host "Bad Gateway" = ∅.
Proof.
  exact (proj2 (parseAirlineNames_empty_iff Reference.host "Bad Gateway") eq_refl).
Defined.

(* ===================================================================== *)
(** * Rendering *)
(* ===================================================================== *)

Section Rendering.

Context (host : Host).

Lemma getStatusDescription_renders code time :
  match code with
  | Some c => if String.eqb c "E" then formattable host time else true
  | None => true
  end = true ->
  exists v, getStatusDescription host code time = Normal v.
Proof.
  unfold getStatusDescription. destruct code as [c|]; [|eauto].
  destruct (negb (JsString.truthy c)); [eauto|].
  destruct (String.eqb c "E"); cbn [andb]; [|eauto].
  intros H. destruct (truthyOpt time); [|eauto].
  destruct (formatLocalTime_formattable host time H) as [s ->]. cbn. eauto.
Qed.

Lemma getStatusDescription_not_renders code time :
  match code with
  | Some c => if String.eqb c "E" then formattable host time else true
  | None => true
  end = false ->
  getStatusDescription host code time = Throw invalidTime.
Proof.
  destruct code as [c|]; [|discriminate].
  destruct (String.eqb c "E") eqn:Ec; [|discriminate].
  apply String.eqb_eq in Ec. subst c. intros H.
  pose proof (formatLocalTime_not_formattable host time H) as Hf.
  apply formattable_spec in H as (s & -> & Hs & _).
  apply truthy_nonempty in Hs.
  unfold getStatusDescription. cbn [JsString.truthy negb String.eqb Ascii.eqb Bool.eqb andb truthyOpt].
  rewrite Hs, Hf. reflexivity.
Qed.

Lemma flightRow_renders f (airlinesMap : gmap string string) :
  renders host f = true ->
  exists row, flightRow host f airlinesMap = Normal row /\ isFlightRow row.
Proof.
  unfold renders. intros [Ht Hs]%andb_true_iff.
  destruct (formatLocalTime_formattable host _ Ht) as [t Hft].
  destruct (getStatusDescription_renders _ _ Hs) as [v Hv].
  unfold flightRow. rewrite Hft. cbn. rewrite Hv. cbn.
  eexists. split; [reflexivity|]. split; [reflexivity|].
  repeat constructor.
Qed.

Lemma flightRow_not_renders f (airlinesMap : gmap string string) :
  renders host f = false -> flightRow host f airlinesMap = Throw invalidTime.
Proof.
  unfold renders, flightRow. intros H.
  destruct (formattable host (Some (scheduleTime f))) eqn:Ht.
  - destruct (formatLocalTime_formattable host _ Ht) as [t ->]. cbn.
    cbn [andb] in H. rewrite (getStatusDescription_not_renders _ _ H). reflexivity.
  - rewrite (formatLocalTime_not_formattable host _ Ht). reflexivity.
Qed.

Lemma appendRows_renders flights (airlinesMap : gmap string string) rows :
  forallb (renders host) flights = true ->
  exists new,
    appendRows host flights airlinesMap rows = (Normal (), rows ++ new)
    /\ length new = length flights /\ Forall isFlightRow new.
Proof.
  revert rows. induction flights as [|f flights IH]; intros rows H.
  - exists []. rewrite app_nil_r. repeat split. constructor.
  - cbn [forallb] in H. apply andb_true_iff in H as [Hf Hfs].
    destruct (flightRow_renders f airlinesMap Hf) as (row & Hrow & Hshape).
    destruct (IH (rows ++ [row]) Hfs) as (new & Hnew & Hlen & Hall).
    exists (row :: new). cbn [appendRows]. rewrite Hrow, Hnew, <- app_assoc.
    repeat split; [cbn; congruence | constructor; assumption].
Qed.

Lemma appendRows_stops pre f post (airlinesMap : gmap string string) rows :
  forallb (renders host) pre = true -> renders host f = false ->
  exists new,
    appendRows host (pre ++ f :: post) airlinesMap rows = (Throw invalidTime, rows ++ new)
    /\ length new = length pre /\ Forall isFlightRow new.
Proof.
  revert rows. induction pre as [|g pre IH]; intros rows Hpre Hf.
  - exists []. cbn [app appendRows]. rewrite (flightRow_not_renders f _ Hf), app_nil_r.
    repeat split. constructor.
  - cbn [forallb] in Hpre. apply andb_true_iff in Hpre as [Hg Hpre].
    destruct (flightRow_renders g airlinesMap Hg) as (row & Hrow & Hshape).
    destruct (IH (rows ++ [row]) Hpre Hf) as (new & Hnew & Hlen & Hall).
    exists (row :: new). cbn [app appendRows]. rewrite Hrow, Hnew, <- app_assoc.
    repeat split; [cbn; congruence | constructor; assumption].
Qed.

Lemma forallb_false_split {A} (p : A -> bool) l :
  forallb p l = false ->
  exists pre x post, l = pre ++ x :: post /\ forallb p pre = true /\ p x = false.
Proof.
  induction l as [|y l IH]; [discriminate|]. cbn [forallb].
  destruct (p y) eqn:Hy; cbn [andb].
  - intros (pre & x & post & -> & Hpre & Hx)%IH.
    exists (y :: pre), x, post. cbn [forallb]. rewrite Hy. auto.
  - intros _. exists [], y, l. auto.
Qed.

Lemma renderFlights_nonempty flights (airlinesMap : gmap string string) rows :
  flights <> [] ->
  renderFlights host flights airlinesMap rows = appendRows host flights airlinesMap [].
Proof. destruct flights; [contradiction | reflexivity]. Qed.

End Rendering.

(** X10. When every flight can be formatted, [renderFlights] does not throw
    and replaces whatever the table held: by the single row of the empty
    result when there is no flight, and otherwise by one row per flight,
    each of six one-column cells. *)
Theorem renderFlights_renders host flights (airlinesMap : gmap string string) rows :
  forallb (renders host) flights = true ->
  exists out,
    renderFlights host flights airlinesMap rows = (Normal (), out)
    /\ (flights = [] -> out = [noFlightsRow])
    /\ (flights <> [] -> length out = length flights /\ Forall isFlightRow out).
Proof.
  intros H. destruct flights as [|f fs].
  - exists [noFlightsRow]. split; [reflexivity|]. split; [reflexivity|].
    intros Hne. contradiction.
  - destruct (appendRows_renders host (f :: fs) airlinesMap [] H)
      as (new & Hnew & Hlen & Hall).
    exists new. rewrite renderFlights_nonempty by discriminate.
    split; [exact Hnew|]. split; [discriminate|]. intros _. split; assumption.
Qed.

Lemma renderFlights_renders_witness :
  let flights :=
    [ mkFlight "QR" "QR1" "2024-06-14T08:45:00Z" "A" "DOH" (Some "A") None;
      mkFlight "5X" "5X2" "" "D" "CGN" (Some "E") (Some "2024-06-14T09:00:00Z") ] in
  forallb (renders Reference.host) flights = true /\
  exists out,
    renderFlights Reference.host flights ∅ [loadingRow] = (Normal (), out)
    /\ length out = 2%nat.
Proof.
  intros flights.
  assert (forallb (renders Reference.host) flights = true) as H by reflexivity.
  split; [exact H|].
  destruct (renderFlights_renders Reference.host flights ∅ [loadingRow] H)
    as (out & Hout & _ & Hrows).
  exists out. split; [exact Hout|].
  exact (proj1 (Hrows ltac:(discriminate))).
Defined.

(** X11. When some flight cannot be formatted (a non-empty scheduled time
    that is no valid date, or such a status time under the code [E]),
    [renderFlights] throws the RangeError of the formatter at the first such
    flight, having written the rows of the flights before it and no other. *)
Theorem renderFlights_throws host flights (airlinesMap : gmap string string) rows :
  forallb (renders host) flights = false ->
  exists pre f post out,
    flights = pre ++ f :: post
    /\ forallb (renders host) pre = true /\ renders host f = false
    /\ renderFlights host flights airlinesMap rows = (Throw invalidTime, out)
    /\ length out = length pre /\ Forall isFlightRow out.
Proof.
  intros (pre & f & post & -> & Hpre & Hf)%forallb_false_split.
  destruct (appendRows_stops host pre f post airlinesMap [] Hpre Hf)
    as (new & Hnew & Hlen & Hall).
  exists pre, f, post, new.
  rewrite renderFlights_nonempty by (destruct pre; discriminate).
  auto 10.
Qed.

Lemma renderFlights_throws_witness :
  let flights :=
    [ mkFlight "QR" "QR1" "2024-06-14T08:45:00Z" "A" "DOH" None None;
      mkFlight "5X" "5X2" "14 June, 9 o'clock" "D" "CGN" None None;
      mkFlight "QY" "QY3" "2024-06-14T10:45:00Z" "A" "LEJ" None None ] in
  forallb (renders Reference.host) flights = false /\
  exists out,
    renderFlights Reference.host flights ∅ [] = (Throw invalidTime, out)
    /\ length out = 1%nat.
Proof.
  intros flights.
  assert (forallb (renders Reference.host) flights = false) as H by reflexivity.
  split; [exact H|].
  destruct (renderFlights_throws Reference.host flights ∅ [] H)
    as (pre & f & post & out & Hsplit & Hpre & Hf & Hout & Hlen & _).
  exists out. split; [exact Hout|].
  destruct pre as [|a [|b pre]].
  - injection Hsplit as <- _. discriminate Hf.
  - exact Hlen.
  - exfalso. injection Hsplit as <- <- _. discriminate Hpre.
Defined.

(* ===================================================================== *)
(** * The pipeline: outcomes *)
(* ===================================================================== *)

Section Outcomes.

Context (host : Host).

Lemma forallb_elem_of {A} (p : A -> bool) l :
  forallb p l = true <-> forall x, x ∈ l -> p x = true.
Proof.
  rewrite forallb_forall. split; intros H x Hx; apply H, list_elem_of_In, Hx.
Qed.

Lemma elem_of_cargoFlightsOf fx ax r :
  r ∈ cargoFlightsOf host fx ax <->
  r ∈ parseFlights host fx /\ isCargo (parseAirlineNames host ax) r = true.
Proof.
  unfold cargoFlightsOf. rewrite <- arraySort_perm, list_elem_of_filter. tauto.
Qed.

Lemma length_cargoFlightsOf fx ax :
  length (cargoFlightsOf host fx ax)
  = length (filter (fun f => isCargo (parseAirlineNames host ax) f = true)
                   (parseFlights host fx)).
Proof. unfold cargoFlightsOf. rewrite <- arraySort_perm. reflexivity. Qed.

Lemma parseAirlineNames_name_nonempty xml K n :
  parseAirlineNames host xml !! K = Some n -> n <> "".
Proof.
  rewrite parseAirlineNames_lookup. intros H.
  apply last_Some_elem_of, elem_of_namesFor in H as (el & _ & H).
  apply airlineEntry_inv in H as (c & _ & _ & _ & Hn & _). exact Hn.
Qed.

(** With both payloads at hand, the invocation renders the cargo flights,
    and falls to the [catch] block if the rendering throws. *)
Lemma loadFlights_fetched net page fx ax :
  fetched net fx ax ->
  loadFlights host net page =
    match renderFlights host (cargoFlightsOf host fx ax)
                        (parseAirlineNames host ax) [loadingRow] with
    | (Normal _, rows) => mkPage rows (console page)
    | (Throw e, _) => errorPage page e
    end.
Proof.
  intros (r & a & Hr & Ha & Hfx & Hax).
  unfold loadFlights. rewrite loadFlightsTry_requests, Hr, Ha. cbn.
  rewrite Hfx, Hax. cbn.
  rewrite (arrayFilter_pure _ (isCargo (parseAirlineNames host ax))).
  - reflexivity.
  - intros f Hf. apply isCargoFlight_noLower.
    exact (parseFlights_airline_noLower host fx f Hf).
Qed.

Lemma loadingRow_not_flightRow : ~ isFlightRow loadingRow.
Proof. intros [H _]. discriminate H. Qed.

End Outcomes.

(** X12. In the row of a parsed flight, the airline cell shows the name the
    parsed directory has for the flight's code and, when it has none, the
    code itself; the direction cell shows [Arrival] when [arrDep] is exactly
    [A] and [Departure] for anything else, the empty string included; the
    flight id and the remote airport are shown as parsed. *)
Theorem flightRow_cells host fx ax f row :
  f ∈ parseFlights host fx ->
  flightRow host f (parseAirlineNames host ax) = Normal row ->
  exists t d,
    formatLocalTime host (Some (scheduleTime f)) = Normal t
    /\ getStatusDescription host (statusCode f) (statusTime f) = Normal d
    /\ row =
       [ textCell (VStr t);
         textCell (VStr (default (airline f)
                                 (parseAirlineNames host ax !! airline f)));
         textCell (VStr (flightId f));
         textCell (VStr (if String.eqb (arrDep f) "A" then "Arrival" else "Departure"));
         textCell (VStr (otherAirport f));
         textCell d ].
Proof.
  intros Hf. pose proof (parseFlights_airline_noLower host fx f Hf) as Hlow.
  unfold flightRow.
  destruct (formatLocalTime host (Some (scheduleTime f))) as [t|e]; [|discriminate].
  cbn. destruct (getStatusDescription host _ _) as [d|e]; [|discriminate].
  cbn. intros [= <-]. exists t, d. split; [reflexivity|]. split; [reflexivity|].
  rewrite jsGet_noLower by exact Hlow.
  destruct (parseAirlineNames host ax !! airline f) as [n|] eqn:E; [|reflexivity].
  apply parseAirlineNames_name_nonempty in E. cbn [orElse default].
  apply truthy_nonempty in E.
  rewrite E. reflexivity.
Qed.

Lemma flightRow_cells_witness :
  let fx := "<flights><flight><airline>lh</airline><flight_id>LH8400</flight_id><arr_dep>a</arr_dep><airport>FRA</airport></flight></flights>" in
  let ax := "<airlineNames><airlineName code='LH' name='Lufthansa Cargo'/></airlineNames>" in
  let f := mkFlight "LH" "LH8400" "" "a" "FRA" None None in
  f ∈ parseFlights Reference.host fx /\
  exists row,
    flightRow Reference.host f (parseAirlineNames Reference.host ax) = Normal row
    /\ row !! 1%nat = Some (textCell (VStr "Lufthansa Cargo"))
    /\ row !! 3%nat = Some (textCell (VStr "Departure")).
Proof.
  intros fx ax f.
  assert (f ∈ parseFlights Reference.host fx) as Hf by (vm_compute; left).
  split; [exact Hf|].
  destruct (flightRow_cells Reference.host fx ax f _ Hf eq_refl)
    as (t & d & Ht & Hd & Hrow).
  eexists. split; [reflexivity|]. rewrite Hrow. split; reflexivity.
Defined.

(** X13. When both payloads are retrieved and no parsed flight is cargo (an
    empty feed and an unparseable one included), the table ends with the
    single row of the empty result and nothing is logged. *)
Theorem loadFlights_no_cargo host net page fx ax :
  fetched net fx ax ->
  (forall r, r ∈ parseFlights host fx ->
             isCargo (parseAirlineNames host ax) r = false) ->
  loadFlights host net page = mkPage [noFlightsRow] (console page).
Proof.
  intros Hfetched Hnone. rewrite (loadFlights_fetched host net page fx ax Hfetched).
  assert (cargoFlightsOf host fx ax = []) as ->; [|reflexivity].
  destruct (cargoFlightsOf host fx ax) as [|r l] eqn:E; [reflexivity|].
  assert (r ∈ cargoFlightsOf host fx ax) as Hr by (rewrite E; left).
  apply elem_of_cargoFlightsOf in Hr as [Hr Hc].
  rewrite (Hnone r Hr) in Hc. discriminate Hc.
Qed.

Lemma loadFlights_no_cargo_witness :
  let fx := "<flights><flight><airline>SK</airline><flight_id>SK4035</flight_id></flight></flights>" in
  let ok body := Normal (mkResponse 200 (Normal body)) in
  let net := networkOf (ok fx) (ok "<airlineNames/>") false in
  fetched net fx "<airlineNames/>" /\
  loadFlights Reference.host net (mkPage [] []) = mkPage [noFlightsRow] [].
Proof.
  intros fx ok net.
  assert (fetched net fx "<airlineNames/>") as H.
  { exists (mkResponse 200 (Normal fx)), (mkResponse 200 (Normal "<airlineNames/>")).
    repeat split. }
  split; [exact H|].
  apply (loadFlights_no_cargo Reference.host net (mkPage [] []) fx "<airlineNames/>" H).
  intros r Hr. vm_compute in Hr.
  apply list_elem_of_singleton in Hr. subst r. reflexivity.
Defined.

(** X14. When both payloads are retrieved, at least one parsed flight is
    cargo and every cargo flight can be formatted, the table ends with one
    six-cell row per cargo flight of the feed, and nothing is logged. *)
Theorem loadFlights_rows host net page fx ax :
  fetched net fx ax ->
  let dir := parseAirlineNames host ax in
  let cargo := filter (fun f => isCargo dir f = true) (parseFlights host fx) in
  cargo <> [] ->
  (forall r, r ∈ cargo -> renders host r = true) ->
  let page' := loadFlights host net page in
  console page' = console page
  /\ length (tableBody page') = length cargo
  /\ Forall isFlightRow (tableBody page').
Proof.
  intros Hfetched dir cargo Hne Hall page'. subst page'.
  rewrite (loadFlights_fetched host net page fx ax Hfetched).
  assert (forallb (renders host) (cargoFlightsOf host fx ax) = true) as Hr.
  { apply forallb_elem_of. intros r Hr. apply Hall.
    unfold cargoFlightsOf in Hr. rewrite <- arraySort_perm in Hr. exact Hr. }
  assert (cargoFlightsOf host fx ax <> []) as Hne'.
  { intros Hnil. apply Hne. apply length_zero_iff_nil.
    subst cargo dir. rewrite <- length_cargoFlightsOf, Hnil. reflexivity. }
  destruct (appendRows_renders host _ (parseAirlineNames host ax) [] Hr)
    as (new & Hnew & Hlen & Hshape).
  rewrite renderFlights_nonempty, Hnew by exact Hne'. cbn.
  split; [reflexivity|]. split; [|exact Hshape].
  rewrite Hlen. apply length_cargoFlightsOf.
Qed.

Lemma loadFlights_rows_witness :
  let fx := "<flights><flight><airline>QR</airline><schedule_time>2024-06-14T10:00:00Z</schedule_time></flight><flight><airline>SK</airline></flight><flight><airline>5X</airline><schedule_time>2024-06-14T08:00:00Z</schedule_time></flight></flights>" in
  let ok body := Normal (mkResponse 200 (Normal body)) in
  let net := networkOf (ok fx) (ok "<airlineNames/>") false in
  fetched net fx "<airlineNames/>" /\
  length (tableBody (loadFlights Reference.host net (mkPage [] []))) = 2%nat.
Proof.
  intros fx ok net.
  assert (fetched net fx "<airlineNames/>") as H.
  { exists (mkResponse 200 (Normal fx)), (mkResponse 200 (Normal "<airlineNames/>")).
    repeat split. }
  split; [exact H|].
  refine (proj1 (proj2 (loadFlights_rows Reference.host net (mkPage [] []) fx
                          "<airlineNames/>" H _ _))).
  - vm_compute. discriminate.
  - intros r Hr. vm_compute in Hr.
    repeat (apply elem_of_cons in Hr as [->|Hr]; [reflexivity|]).
    exfalso. exact (not_elem_of_nil _ Hr).
Defined.

(** X15. When both payloads are retrieved and some cargo flight cannot be
    formatted, the whole table is replaced by the error row of the
    formatter's RangeError, which is logged once: no flight row is shown,
    the rows of the other flights included. *)
Theorem loadFlights_unformattable_time host net page fx ax r :
  fetched net fx ax ->
  r ∈ parseFlights host fx ->
  isCargo (parseAirlineNames host ax) r = true ->
  renders host r = false ->
  loadFlights host net page
  = mkPage [messageRow "Error fetching flight data: Invalid time value"]
           (console page ++ [invalidTime]).
Proof.
  intros Hfetched Hr Hcargo Hbad.
  rewrite (loadFlights_fetched host net page fx ax Hfetched).
  assert (forallb (renders host) (cargoFlightsOf host fx ax) = false) as Hf.
  { destruct (forallb _ _) eqn:E; [|reflexivity].
    rewrite (proj1 (forallb_elem_of _ _) E r) in Hbad; [discriminate|].
    apply elem_of_cargoFlightsOf. auto. }
  apply forallb_false_split in Hf as (pre & f & post & Hsplit & Hpre & Hf).
  destruct (appendRows_stops host pre f post (parseAirlineNames host ax) [] Hpre Hf)
    as (new & Hnew & _).
  rewrite Hsplit, renderFlights_nonempty, Hnew by (destruct pre; discriminate).
  reflexivity.
Qed.

Lemma loadFlights_unformattable_time_witness :
  let fx := "<flights><flight><airline>QR</airline><schedule_time>2024-06-14T10:00:00Z</schedule_time></flight><flight><airline>5X</airline><schedule_time>10:00</schedule_time></flight></flights>" in
  let ok body := Normal (mkResponse 200 (Normal body)) in
  let net := networkOf (ok fx) (ok "<airlineNames/>") false in
  fetched net fx "<airlineNames/>" /\
  tableBody (loadFlights Reference.host net (mkPage [] []))
  = [messageRow "Error fetching flight data: Invalid time value"].
Proof.
  intros fx ok net.
  assert (fetched net fx "<airlineNames/>") as H.
  { exists (mkResponse 200 (Normal fx)), (mkResponse 200 (Normal "<airlineNames/>")).
    repeat split. }
  split; [exact H|].
  rewrite (loadFlights_unformattable_time Reference.host net (mkPage [] []) fx
             "<airlineNames/>" (mkFlight "5X" "" "10:00" "" "" None None) H).
  - reflexivity.
  - vm_compute. right. left.
  - reflexivity.
  - reflexivity.
Defined.

Section FinalStates.

Context (host : Host).

(** An invocation either fails in retrieval or has both payloads. *)
Lemma retrievalFails_or_fetched net :
  (exists err, retrievalFails net err) \/ (exists fx ax, fetched net fx ax).
Proof.
  destruct (fetch net FEED_URL) as [r|e] eqn:Hr.
  - destruct (fetch net AIRLINE_NAMES_URL) as [a|e] eqn:Ha.
    + destruct (text r) as [fx|e] eqn:Hfx.
      * destruct (text a) as [ax|e] eqn:Hax.
        -- right. exists fx, ax, r, a. auto.
        -- left. apply retrievalFails_covers. right. right. right. eauto.
      * left. apply retrievalFails_covers. right. right. left. eauto.
    + left. apply retrievalFails_covers. right. left. eauto.
  - left. apply retrievalFails_covers. left. eauto.
Qed.

Lemma errorPage_rows page err :
  tableBody (errorPage page err) <> []
  /\ loadingRow ∉ tableBody (errorPage page err).
Proof.
  split; [discriminate|]. cbn. intros H%list_elem_of_singleton.
  unfold loadingRow, messageRow in H. cbn in H. discriminate H.
Qed.

Lemma flightRows_no_loadingRow rows : Forall isFlightRow rows -> loadingRow ∉ rows.
Proof.
  intros H Hin. rewrite Forall_forall in H.
  exact (loadingRow_not_flightRow (H _ Hin)).
Qed.

End FinalStates.

(** X16. Every invocation of [loadFlights] ends in one of three states: the
    error row of one error, logged once; the single row of the empty result
    with nothing logged; or a non-empty table of six-cell flight rows with
    nothing logged. The table is never left empty and the loading row never
    stays. *)
Theorem loadFlights_final_states host net page :
  let page' := loadFlights host net page in
  ((exists err, page' = errorPage page err)
   \/ page' = mkPage [noFlightsRow] (console page)
   \/ (console page' = console page /\ tableBody page' <> []
       /\ Forall isFlightRow (tableBody page')))
  /\ tableBody page' <> []
  /\ loadingRow ∉ tableBody page'.
Proof.
  intros page'. subst page'.
  destruct (retrievalFails_or_fetched net) as [[err Herr]|(fx & ax & Hf)].
  - rewrite (loadFlights_failure host net page err Herr).
    split; [left; eauto|]. apply errorPage_rows.
  - rewrite (loadFlights_fetched host net page fx ax Hf).
    destruct (cargoFlightsOf host fx ax) as [|f fs] eqn:Ecargo.
    + cbn. split; [right; left; reflexivity|]. split; [discriminate|].
      intros H%list_elem_of_singleton. discriminate H.
    + rewrite renderFlights_nonempty by discriminate.
      destruct (forallb (renders host) (f :: fs)) eqn:Er.
      * destruct (appendRows_renders host (f :: fs) (parseAirlineNames host ax) [] Er)
          as (new & -> & Hlen & Hshape).
        cbn [app tableBody console].
        assert (new <> []) as Hne by (destruct new; discriminate).
        split; [right; right; auto|]. split; [exact Hne|].
        apply flightRows_no_loadingRow. exact Hshape.
      * apply forallb_false_split in Er as (pre & g & post & -> & Hpre & Hg).
        destruct (appendRows_stops host pre g post (parseAirlineNames host ax) []
                    Hpre Hg) as (new & -> & _).
        split; [left; eauto|]. apply errorPage_rows.
Qed.

(* ===================================================================== *)
(** * Sorting: further facts *)
(* ===================================================================== *)

Section SortingFacts.

Context (host : Host).

Lemma arraySort_sorted_id l :
  Forall (validSchedule host) l -> StronglySorted (notLater host) l ->
  arraySort (bySchedule host) l = l.
Proof.
  induction l as [|x l IH]; intros Hv Hs; [reflexivity|].
  apply Forall_cons in Hv as [Hx Hv].
  apply StronglySorted_inv in Hs as [Hs Hall].
  change (sortedInsert (bySchedule host) x (arraySort (bySchedule host) l) = x :: l).
  rewrite IH by assumption.
  destruct l as [|y l]; [reflexivity|]. cbn [sortedInsert].
  apply Forall_cons in Hv as [Hy _]. apply Forall_cons in Hall as [Hxy _].
  rewrite sortCompare_valid by assumption.
  unfold notLater in Hxy.
  destruct (Z.leb_spec (instant host x - instant host y) 0); [reflexivity | lia].
Qed.

(** Two ascending arrangements that agree on the flights of every instant,
    order included, are the same list. *)
Lemma sorted_stable_unique l1 l2 :
  StronglySorted (notLater host) l1 -> StronglySorted (notLater host) l2 ->
  (forall t, filter (fun f => instant host f = t) l1
             = filter (fun f => instant host f = t) l2) ->
  l1 = l2.
Proof.
  revert l2. induction l1 as [|x l1 IH]; intros l2 Hs1 Hs2 Heq.
  - destruct l2 as [|y l2]; [reflexivity|].
    specialize (Heq (instant host y)). rewrite filter_nil, filter_cons_True in Heq by reflexivity.
    discriminate Heq.
  - destruct l2 as [|y l2].
    { specialize (Heq (instant host x)).
      rewrite filter_nil, filter_cons_True in Heq by reflexivity. discriminate Heq. }
    apply StronglySorted_inv in Hs1 as [Hs1 Hall1].
    apply StronglySorted_inv in Hs2 as [Hs2 Hall2].
    rewrite Forall_forall in Hall1, Hall2.
    assert (instant host x = instant host y) as Hxy.
    { assert (y ∈ x :: l1) as Hy.
      { pose proof (Heq (instant host y)) as H.
        rewrite (filter_cons_True _ y) in H by reflexivity.
        assert (y ∈ filter (fun f => instant host f = instant host y) (x :: l1)) as Hin
          by (rewrite H; left).
        apply list_elem_of_filter in Hin as [_ Hin]. exact Hin. }
      assert (x ∈ y :: l2) as Hx.
      { pose proof (Heq (instant host x)) as H.
        rewrite (filter_cons_True _ x) in H by reflexivity.
        assert (x ∈ filter (fun f => instant host f = instant host x) (y :: l2)) as Hin
          by (rewrite <- H; left).
        apply list_elem_of_filter in Hin as [_ Hin]. exact Hin. }
      apply elem_of_cons in Hy as [Hy|Hy]; [congruence|].
      apply elem_of_cons in Hx as [Hx|Hx]; [congruence|].
      pose proof (Hall1 y Hy) as H1. pose proof (Hall2 x Hx) as H2.
      unfold notLater in H1, H2. lia. }
    pose proof (Heq (instant host x)) as Hhead.
    rewrite (filter_cons_True _ x), (filter_cons_True _ y) in Hhead
      by (reflexivity || congruence).
    injection Hhead as <- Htail. f_equal.
    apply IH; [assumption..|]. intros t. specialize (Heq t).
    rewrite !filter_cons in Heq. revert Heq.
    destruct (decide (instant host x = t)) as [<-|]; intros Heq; [|exact Heq].
    exact Htail.
Qed.

End SortingFacts.

(** X17. The sort of [loadFlights] returns a rearrangement of the flights it
    is given, none lost and none repeated, also when some scheduled times
    are not valid dates and the comparator returns NaN. *)
Theorem arraySort_keeps_flights host flights :
  flights ≡ₚ arraySort (bySchedule host) flights
  /\ length (arraySort (bySchedule host) flights) = length flights
  /\ (forall f, f ∈ arraySort (bySchedule host) flights <-> f ∈ flights).
Proof.
  pose proof (arraySort_perm (bySchedule host) flights) as H.
  split; [exact H|]. split.
  - rewrite <- H. reflexivity.
  - intros f. rewrite <- H. reflexivity.
Qed.

(** X18. With valid scheduled times, flights that already come in ascending
    order of instant are left as they are by the sort, and sorting a second
    time changes nothing. *)
Theorem arraySort_sorted_input host flights :
  Forall (validSchedule host) flights ->
  (StronglySorted (notLater host) flights ->
   arraySort (bySchedule host) flights = flights)
  /\ arraySort (bySchedule host) (arraySort (bySchedule host) flights)
     = arraySort (bySchedule host) flights.
Proof.
  intros Hv. split.
  - apply arraySort_sorted_id. exact Hv.
  - apply arraySort_sorted_id.
    + apply arraySort_valid. exact Hv.
    + apply arraySort_sorted. exact Hv.
Qed.

Lemma arraySort_sorted_input_witness :
  let f1 := mkFlight "QR" "QR1" "2024-06-14T08:45:00Z" "A" "DOH" None None in
  let f2 := mkFlight "5X" "5X2" "2024-06-14T08:45:00Z" "D" "CGN" None None in
  let f3 := mkFlight "QY" "QY3" "2024-06-15T00:05:00Z" "A" "LEJ" None None in
  Forall (validSchedule Reference.host) [f1; f2; f3] /\
  arraySort (bySchedule Reference.host) [f1; f2; f3] = [f1; f2; f3].
Proof.
  intros f1 f2 f3.
  assert (Forall (validSchedule Reference.host) [f1; f2; f3]) as H.
  { repeat (apply Forall_cons; split); [| | | apply Forall_nil];
      vm_compute; eauto. }
  split; [exact H|].
  apply (proj1 (arraySort_sorted_input Reference.host [f1; f2; f3] H)).
  repeat constructor; unfold notLater; vm_compute; discriminate.
Defined.

(** X19. With valid scheduled times, the result of the sort is the only
    arrangement of the flights that is ascending by instant and keeps the
    flights of every instant in the order they were given. *)
Theorem arraySort_unique host flights sorted :
  Forall (validSchedule host) flights ->
  StronglySorted (notLater host) sorted ->
  (forall t, filter (fun f => instant host f = t) sorted
             = filter (fun f => instant host f = t) flights) ->
  sorted = arraySort (bySchedule host) flights.
Proof.
  intros Hv Hs Hstable. apply (sorted_stable_unique host); [exact Hs | |].
  - apply arraySort_sorted. exact Hv.
  - intros t. rewrite Hstable. symmetry. apply arraySort_filter. exact Hv.
Qed.

Lemma arraySort_unique_witness :
  let f1 := mkFlight "QR" "QR1" "2024-06-14T08:45:00Z" "A" "DOH" None None in
  let f2 := mkFlight "5X" "5X2" "2024-06-14T07:10:00Z" "D" "CGN" None None in
  Forall (validSchedule Reference.host) [f1; f2] /\
  [f2; f1] = arraySort (bySchedule Reference.host) [f1; f2].
Proof.
  intros f1 f2.
  assert (Forall (validSchedule Reference.host) [f1; f2]) as H.
  { repeat (apply Forall_cons; split); [| | apply Forall_nil]; vm_compute; eauto. }
  split; [exact H|].
  apply (arraySort_unique Reference.host [f1; f2] [f2; f1] H).
  - repeat constructor; unfold notLater; vm_compute; discriminate.
  - intros t. rewrite !filter_cons, filter_nil.
    change (instant Reference.host f1) with 1718354700000%Z.
    change (instant Reference.host f2) with 1718349000000%Z.
    repeat case_decide; try reflexivity; lia.
Defined.

Section RowsInOrder.

Context (host : Host).

(** The rows appended are the rows of the flights, one for one. *)
Lemma appendRows_rows flights (airlinesMap : gmap string string) rows :
  forallb (renders host) flights = true ->
  exists new,
    appendRows host flights airlinesMap rows = (Normal (), rows ++ new)
    /\ Forall2 (fun f row => flightRow host f airlinesMap = Normal row) flights new.
Proof.
  revert rows. induction flights as [|f flights IH]; intros rows H.
  - exists []. rewrite app_nil_r. split; [reflexivity | constructor].
  - cbn [forallb] in H. apply andb_true_iff in H as [Hf Hfs].
    destruct (flightRow_renders host f airlinesMap Hf) as (row & Hrow & _).
    destruct (IH (rows ++ [row]) Hfs) as (new & Hnew & Hall).
    exists (row :: new). cbn [appendRows]. rewrite Hrow, Hnew, <- app_assoc.
    split; [reflexivity | constructor; assumption].
Qed.

End RowsInOrder.

(** X20. When both payloads are retrieved, every cargo flight has a
    scheduled time that is a valid date and every cargo flight can be
    formatted, the rows of the table follow the sorted cargo flights one for
    one: the row at each position is the row built for the flight the sort
    put at that position. *)
Theorem loadFlights_rows_in_order host net page fx ax i f :
  fetched net fx ax ->
  Forall (validSchedule host) (cargoFlightsOf host fx ax) ->
  forallb (renders host) (cargoFlightsOf host fx ax) = true ->
  cargoFlightsOf host fx ax !! i = Some f ->
  exists row,
    tableBody (loadFlights host net page) !! i = Some row
    /\ flightRow host f (parseAirlineNames host ax) = Normal row.
Proof.
  intros Hfetched _ Hr Hi.
  rewrite (loadFlights_fetched host net page fx ax Hfetched).
  assert (cargoFlightsOf host fx ax <> []) as Hne.
  { intros Hnil. rewrite Hnil in Hi. discriminate Hi. }
  destruct (appendRows_rows host _ (parseAirlineNames host ax) [] Hr)
    as (new & Hnew & Hall).
  rewrite renderFlights_nonempty, Hnew by exact Hne. cbn [app tableBody].
  destruct (Forall2_lookup_l _ _ _ _ _ Hall Hi) as (row & Hrow & Hbuilt).
  exists row. auto.
Qed.

Lemma loadFlights_rows_in_order_witness :
  let fx := "<flights><flight><airline>QR</airline><flight_id>QR1</flight_id><schedule_time>2024-06-14T10:00:00Z</schedule_time></flight><flight><airline>5X</airline><flight_id>5X2</flight_id><schedule_time>2024-06-14T08:00:00Z</schedule_time></flight></flights>" in
  let ok body := Normal (mkResponse 200 (Normal body)) in
  let net := networkOf (ok fx) (ok "<airlineNames/>") false in
  let first := mkFlight "5X" "5X2" "2024-06-14T08:00:00Z" "" "" None None in
  fetched net fx "<airlineNames/>" /\
  Forall (validSchedule Reference.host)
         (cargoFlightsOf Reference.host fx "<airlineNames/>") /\
  cargoFlightsOf Reference.host fx "<airlineNames/>" !! 0%nat = Some first /\
  exists row,
    tableBody (loadFlights Reference.host net (mkPage [] [])) !! 0%nat = Some row
    /\ flightRow Reference.host first (parseAirlineNames Reference.host "<airlineNames/>")
       = Normal row.
Proof.
  intros fx ok net first.
  assert (fetched net fx "<airlineNames/>") as H.
  { exists (mkResponse 200 (Normal fx)), (mkResponse 200 (Normal "<airlineNames/>")).
    repeat split. }
  assert (cargoFlightsOf Reference.host fx "<airlineNames/>"
          = [first; mkFlight "QR" "QR1" "2024-06-14T10:00:00Z" "" "" None None])
    as Hcargo by (vm_compute; reflexivity).
  assert (Forall (validSchedule Reference.host)
                 (cargoFlightsOf Reference.host fx "<airlineNames/>")) as Hvalid.
  { rewrite Hcargo. repeat (apply Forall_cons; split); [| | apply Forall_nil];
      vm_compute; eauto. }
  assert (cargoFlightsOf Reference.host fx "<airlineNames/>" !! 0%nat = Some first)
    as Hfirst by reflexivity.
  split; [exact H|]. split; [exact Hvalid|]. split; [exact Hfirst|].
  exact (loadFlights_rows_in_order Reference.host net (mkPage [] []) fx
           "<airlineNames/>" 0%nat first H Hvalid eq_refl Hfirst).
Defined.

(* ===================================================================== *)
(** * The pipeline: order of the rows and failures *)
(* ===================================================================== *)

Section PipelineClaims.

Context (host : Host).

(** Once both payloads are read, the only error an invocation can still
    meet is the RangeError of the formatter. *)
Lemma loadFlights_fetched_outcome net page fx ax :
  fetched net fx ax ->
  loadFlights host net page = errorPage page invalidTime
  \/ console (loadFlights host net page) = console page.
Proof.
  intros Hf. rewrite (loadFlights_fetched host net page fx ax Hf).
  destruct (cargoFlightsOf host fx ax) as [|f fs]; [right; reflexivity|].
  rewrite renderFlights_nonempty by discriminate.
  destruct (forallb (renders host) (f :: fs)) eqn:Er.
  - destruct (appendRows_renders host (f :: fs) (parseAirlineNames host ax) [] Er)
      as (new & -> & _). right. reflexivity.
  - apply forallb_false_split in Er as (pre & g & post & -> & Hpre & Hg).
    destruct (appendRows_stops host pre g post (parseAirlineNames host ax) []
                Hpre Hg) as (new & -> & _).
    left. reflexivity.
Qed.

Lemma loadFlights_no_flight_element net page fx ax :
  fetched net fx ax ->
  Dom.docGetElementsByTagName (parseFromString host fx) "flight" = [] ->
  loadFlights host net page = mkPage [noFlightsRow] (console page).
Proof.
  intros Hf Hels. rewrite (loadFlights_fetched host net page fx ax Hf).
  unfold cargoFlightsOf, parseFlights. rewrite Hels. reflexivity.
Qed.

End PipelineClaims.

(** C7, as stated, fails when a cargo flight has no valid scheduled time.
    The comparator returns NaN for every comparison with such a flight, the
    sort reads NaN as "equal", and two dated flights that are only ever
    compared with undated neighbours stay as the feed had them: here the
    flight of 12:00 UTC is shown before the flight of 08:00 UTC. *)
Lemma loadFlights_unsorted_around_undated_flights :
  let fx := "<flights><flight><airline>QR</airline><schedule_time>2024-06-14T12:00:00Z</schedule_time></flight><flight><airline>5X</airline></flight><flight><airline>QY</airline></flight><flight><airline>UPS</airline><schedule_time>2024-06-14T08:00:00Z</schedule_time></flight></flights>" in
  let ok body := Normal (mkResponse 200 (Normal body)) in
  let net := networkOf (ok fx) (ok "<airlineNames/>") false in
  let late := mkFlight "QR" "" "2024-06-14T12:00:00Z" "" "" None None in
  let early := mkFlight "UPS" "" "2024-06-14T08:00:00Z" "" "" None None in
  let shown := tableBody (loadFlights Reference.host net (mkPage [] [])) in
  parseFlights Reference.host fx
    = [late; mkFlight "5X" "" "" "" "" None None;
       mkFlight "QY" "" "" "" "" None None; early]
  /\ (instant Reference.host early < instant Reference.host late)%Z
  /\ (fun row => cellText <$> row !! 1%nat) <$> shown
     = [Some (VStr "QR"); Some (VStr "5X"); Some (VStr "QY"); Some (VStr "UPS")]
  /\ (fun row => cellText <$> row !! 0%nat) <$> shown
     = [Some (VStr "14 Jun 14:00"); Some (VStr ""); Some (VStr "");
        Some (VStr "14 Jun 10:00")].
Proof. repeat split; reflexivity. Qed.

(** C7, amended. When both payloads are retrieved and every cargo flight of
    the feed has a scheduled time that is a valid date, the sequence that
    [loadFlights] renders is the filtered flight sequence stable-sorted in
    ascending order of the instant of [scheduleTime]: it holds the same
    flights, in ascending order, flights of one instant keeping the order
    the feed gave them; three flights of instants T1 < T2 < T3, in whatever
    order they come, leave in the order T1, T2, T3; and when every one of
    them can be formatted, the rows of the table are the rows of these
    flights in that order. *)
Theorem loadFlights_sorted_by_schedule host net page fx ax :
  fetched net fx ax ->
  let dir := parseAirlineNames host ax in
  let cargo := filter (fun f => isCargo dir f = true) (parseFlights host fx) in
  Forall (validSchedule host) cargo ->
  let sorted := arraySort (bySchedule host) cargo in
  cargo ≡ₚ sorted
  /\ StronglySorted (notLater host) sorted
  /\ (forall t, filter (fun f => instant host f = t) sorted
                = filter (fun f => instant host f = t) cargo)
  /\ (forall f1 f2 f3,
        cargo ≡ₚ [f1; f2; f3] ->
        (instant host f1 < instant host f2 < instant host f3)%Z ->
        sorted = [f1; f2; f3])
  /\ (sorted <> [] -> forallb (renders host) sorted = true ->
      Forall2 (fun f row => flightRow host f dir = Normal row)
              sorted (tableBody (loadFlights host net page))).
Proof.
  intros Hfetched dir cargo Hvalid sorted.
  pose proof (arraySort_sorted host cargo Hvalid) as Hs.
  split; [apply arraySort_perm|]. split; [exact Hs|].
  split; [intros t; apply arraySort_filter; exact Hvalid|].
  split.
  - intros f1 f2 f3 Hp Hlt. apply (sorted_three host); [|exact Hlt|exact Hs].
    rewrite <- Hp. symmetry. apply arraySort_perm.
  - intros Hne Hr.
    rewrite (loadFlights_fetched host net page fx ax Hfetched).
    change (cargoFlightsOf host fx ax) with sorted.
    destruct (appendRows_rows host sorted dir [] Hr) as (new & Hnew & Hall).
    rewrite renderFlights_nonempty by exact Hne. fold dir. rewrite Hnew.
    exact Hall.
Qed.

(** Three cargo flights fed in the order T3, T1, T2, among flights of other
    carriers. *)
Lemma loadFlights_sorted_by_schedule_witness :
  let fx := "<flights><flight><airline>QY</airline><schedule_time>2024-06-15T00:05:00Z</schedule_time></flight><flight><airline>SK</airline></flight><flight><airline>QR</airline><schedule_time>2024-06-14T08:45:00Z</schedule_time></flight><flight><airline>5X</airline><schedule_time>2024-06-14T09:10:00Z</schedule_time></flight></flights>" in
  let ok body := Normal (mkResponse 200 (Normal body)) in
  let net := networkOf (ok fx) (ok "<airlineNames/>") false in
  let f1 := mkFlight "QR" "" "2024-06-14T08:45:00Z" "" "" None None in
  let f2 := mkFlight "5X" "" "2024-06-14T09:10:00Z" "" "" None None in
  let f3 := mkFlight "QY" "" "2024-06-15T00:05:00Z" "" "" None None in
  let cargo :=
    filter (fun f => isCargo (parseAirlineNames Reference.host "<airlineNames/>") f = true)
           (parseFlights Reference.host fx) in
  fetched net fx "<airlineNames/>" /\
  Forall (validSchedule Reference.host) cargo /\
  arraySort (bySchedule Reference.host) cargo = [f1; f2; f3] /\
  (fun row => cellText <$> row !! 0%nat)
    <$> tableBody (loadFlights Reference.host net (mkPage [] []))
  = [Some (VStr "14 Jun 10:45"); Some (VStr "14 Jun 11:10"); Some (VStr "15 Jun 02:05")].
Proof.
  intros fx ok net f1 f2 f3 cargo.
  assert (fetched net fx "<airlineNames/>") as H.
  { exists (mkResponse 200 (Normal fx)), (mkResponse 200 (Normal "<airlineNames/>")).
    repeat split. }
  assert (cargo = [f3; f1; f2]) as Hcargo by (vm_compute; reflexivity).
  assert (Forall (validSchedule Reference.host) cargo) as Hvalid.
  { rewrite Hcargo. repeat (apply Forall_cons; split); [| | | apply Forall_nil];
      vm_compute; eauto. }
  split; [exact H|]. split; [exact Hvalid|].
  destruct (loadFlights_sorted_by_schedule Reference.host net (mkPage [] []) fx
              "<airlineNames/>" H Hvalid) as (_ & _ & _ & Hthree & Hrows).
  split.
  - apply Hthree.
    + fold cargo. rewrite Hcargo.
      etrans; [apply perm_swap|]. apply perm_skip, perm_swap.
    + split; reflexivity.
  - reflexivity.
Defined.

(** C1, amended. If a retrieval request is rejected, or the body of a
    response cannot be read, the invocation stops there: the table ends with
    one row, the error message of the failure, and the error is logged once;
    no flight row is shown. Every such failure is covered. The HTTP status of
    a response is not examined: two invocations that receive the same bodies
    end with the same page. Parsing is no failure either: once both bodies
    are read, whatever they hold, the invocation logs no error unless the
    time formatter throws its RangeError while the rows are built; and when
    the document the DOM parser returns for the flight payload holds no
    [flight] element, the table ends with the single row of the empty
    result. *)
Theorem loadFlights_retrieval_failure host net page :
  (forall err, retrievalFails net err ->
     loadFlights host net page = errorPage page err
     /\ showsError (loadFlights host net page))
  /\ ((exists e, fetch net FEED_URL = Throw e)
      \/ (exists e, fetch net AIRLINE_NAMES_URL = Throw e)
      \/ (exists r e, fetch net FEED_URL = Normal r /\ text r = Throw e)
      \/ (exists a e, fetch net AIRLINE_NAMES_URL = Normal a /\ text a = Throw e) ->
      exists err, retrievalFails net err)
  /\ (forall net2, sameBodies net net2 ->
        loadFlights host net page = loadFlights host net2 page)
  /\ (forall fx ax, fetched net fx ax ->
        loadFlights host net page = errorPage page invalidTime
        \/ console (loadFlights host net page) = console page)
  /\ (forall fx ax, fetched net fx ax ->
        Dom.docGetElementsByTagName (parseFromString host fx) "flight" = [] ->
        loadFlights host net page = mkPage [noFlightsRow] (console page)).
Proof.
  split; [|split; [|split; [|split]]].
  - intros err Herr. split.
    + apply loadFlights_failure. exact Herr.
    + rewrite (loadFlights_failure host net page err Herr).
      exists (errMessage err). reflexivity.
  - apply retrievalFails_covers.
  - intros net2. apply loadFlights_sameBodies.
  - intros fx ax. apply loadFlights_fetched_outcome.
  - intros fx ax. apply loadFlights_no_flight_element.
Qed.

(** A request that fails in transport; and a payload that is not XML. *)
Lemma loadFlights_retrieval_failure_witness :
  let failed := mkError "TypeError" "Failed to fetch" in
  let ok body := Normal (mkResponse 200 (Normal body)) in
  let net := networkOf (Throw failed) (ok "<airlineNames/>") false in
  let net2 := networkOf (ok "Service Unavailable") (ok "<airlineNames/>") false in
  (retrievalFails net failed /\
   loadFlights Reference.host net (mkPage [] [])
     = mkPage [messageRow "Error fetching flight data: Failed to fetch"] [failed])
  /\ (fetched net2 "Service Unavailable" "<airlineNames/>" /\
      loadFlights Reference.host net2 (mkPage [] []) = mkPage [noFlightsRow] []).
Proof.
  intros failed ok net net2. split.
  - assert (retrievalFails net failed) as H.
    { apply flight_request_rejected; [reflexivity|]. intros e' He'. discriminate He'. }
    split; [exact H|].
    exact (proj1 (proj1 (loadFlights_retrieval_failure Reference.host net (mkPage [] []))
                    failed H)).
  - assert (fetched net2 "Service Unavailable" "<airlineNames/>") as H.
    { exists (mkResponse 200 (Normal "Service Unavailable")),
             (mkResponse 200 (Normal "<airlineNames/>")).
      repeat split. }
    split; [exact H|].
    exact (proj2 (proj2 (proj2 (proj2
             (loadFlights_retrieval_failure Reference.host net2 (mkPage [] [])))))
             "Service Unavailable" "<airlineNames/>" H eq_refl).
Defined.
